(** * runtime-validation: the schema normalizer and the validation engine

    A shallow embedding of [RuntimeValidator] (the [_getTypeOf] classifier,
    [_normalizeSchema] and [validate]) together with the properties of the
    specification that concern them.

    The TypeScript code inspects schemas by shape at run time, so schemas and
    data are both modelled by one type of JavaScript values.  Conventions of
    the model:

    - a number is an integer ([Z]); [String(n)] is its decimal rendering,
      which is what the code prints for the safe integers;
    - an object is the list of its own enumerable properties in enumeration
      order (a well-formed object has pairwise distinct keys).  The [in]
      operator sees the members of [Object.prototype] as well
      ([inheritedKey]); reading [obj[key]] ([get]) and [String(v)]
      ([toString]) are modelled on own properties, so the statements that
      depend on them say which keys and values they are about
      ([ownLookup], [stringConvertible]);
    - two objects or arrays are never the same reference ([===] and
      [includes] on them are false), as for data and schemas built apart;
    - a call either returns, throws a [TypeError], or exhausts the recursion
      budget the model gives to [validate]. *)

From Stdlib Require Import List String Ascii ZArith Bool Arith Lia DecimalString.
Import ListNotations.
Open Scope string_scope.

(** ** JavaScript values *)

Unset Elimination Schemes.
Inductive JsonValue : Type :=
| JUndefined
| JNull
| JBoolean (b : bool)
| JNumber (n : Z)
| JString (s : string)
| JArray (elems : list JsonValue)
| JObject (fields : list (string * JsonValue)).
Set Elimination Schemes.

(** The schema a caller passes is any of these values. *)
Definition Schema : Type := JsonValue.

Definition JsonObject : Type := list (string * JsonValue).

Module PropType.
Definition UNDEFINED : string := "undefined".
Definition NULL : string := "null".
Definition BOOLEAN : string := "boolean".
Definition NUMBER : string := "number".
Definition STRING : string := "string".
Definition ARRAY : string := "array".
Definition OBJECT : string := "object".
End PropType.

(** [expected] is declared [string]; the type-mismatch branch stores
    [normalizedSchema.dataType] there unconverted, so the field holds a value
    (a [JString] whenever the schema's [dataType] is a [PropType]). *)
Record ValidationError : Type := mkError {
  path : string;
  expected : JsonValue;
  received : string;
  message : string
}.

(** ** Completions: return, throw, or out of budget *)

Inductive Completion (A : Type) : Type :=
| Normal (a : A)
| TypeError
| OutOfFuel.
Arguments Normal {A} a.
Arguments TypeError {A}.
Arguments OutOfFuel {A}.

Definition bind {A B : Type} (c : Completion A) (k : A -> Completion B) : Completion B :=
  match c with
  | Normal a => k a
  | TypeError => TypeError
  | OutOfFuel => OutOfFuel
  end.

Notation "x <- c ;; k" := (bind c (fun x => k))
  (at level 61, c at next level, right associativity).

Section Traversal.
Context {A B : Type} (f : A -> Completion B).

(** [l.map(f)] and the [for ... of] loops that build a result, with the
    first throw ending the traversal. *)
Fixpoint mapM (l : list A) : Completion (list B) :=
  match l with
  | [] => Normal []
  | x :: rest =>
      y <- f x ;;
      ys <- mapM rest ;;
      Normal (y :: ys)
  end.
End Traversal.

(** ** Property access *)

Fixpoint has_key (key : string) (fields : JsonObject) : bool :=
  match fields with
  | [] => false
  | (k, _) :: rest => (k =? key) || has_key key rest
  end.

(** [obj[key]]: [undefined] when the key is absent. *)
Fixpoint get (key : string) (fields : JsonObject) : JsonValue :=
  match fields with
  | [] => JUndefined
  | (k, v) :: rest => if k =? key then v else get key rest
  end.

(** [{...obj, key: v}]: an existing key keeps its place, a new one goes last. *)
Fixpoint setField (key : string) (v : JsonValue) (fields : JsonObject) : JsonObject :=
  match fields with
  | [] => [(key, v)]
  | (k, w) :: rest =>
      if k =? key then (k, v) :: rest else (k, w) :: setField key v rest
  end.

Section WithField.
Context {R : Type} (key : string) (found : JsonValue -> R) (missing : R).

(** [found obj[key]] for a present key, [missing] otherwise. *)
Fixpoint withField (fields : JsonObject) : R :=
  match fields with
  | [] => missing
  | (k, v) :: rest => if k =? key then found v else withField rest
  end.
End WithField.

(** ** Conversions of the language *)

Definition string_of_nat (i : nat) : string :=
  NilZero.string_of_uint (Nat.to_uint i).

Definition string_of_Z (n : Z) : string :=
  NilZero.string_of_int (Z.to_int n).

Definition joinStrings (sep : string) (l : list string) : string :=
  match l with
  | [] => ""
  | s :: rest => fold_left (fun acc t => acc ++ sep ++ t) rest s
  end.

(** [String(v)], which is also what a template literal does with [v].
    Inside [join] a [null] or [undefined] element renders as nothing. *)
Fixpoint toString (v : JsonValue) : string :=
  match v with
  | JUndefined => "undefined"
  | JNull => "null"
  | JBoolean true => "true"
  | JBoolean false => "false"
  | JNumber n => string_of_Z n
  | JString s => s
  | JArray elems =>
      joinStrings ","
        (map (fun e => match e with
                       | JUndefined | JNull => ""
                       | _ => toString e
                       end) elems)
  | JObject _ => "[object Object]"
  end.

(** [arr.join(sep)] *)
Definition join (sep : string) (elems : list JsonValue) : string :=
  joinStrings sep
    (map (fun e => match e with
                   | JUndefined | JNull => ""
                   | _ => toString e
                   end) elems).

Definition truthy (v : JsonValue) : bool :=
  match v with
  | JUndefined | JNull => false
  | JBoolean b => b
  | JNumber n => negb (n =? 0)%Z
  | JString s => negb (s =? "")
  | JArray _ | JObject _ => true
  end.

(** SameValueZero, the comparison of [Array.prototype.includes]. *)
Definition sameValueZero (a b : JsonValue) : bool :=
  match a, b with
  | JUndefined, JUndefined => true
  | JNull, JNull => true
  | JBoolean x, JBoolean y => Bool.eqb x y
  | JNumber x, JNumber y => (x =? y)%Z
  | JString x, JString y => x =? y
  | _, _ => false
  end.

Definition includes (elems : list JsonValue) (v : JsonValue) : bool :=
  existsb (fun e => sameValueZero e v) elems.

(** [s.includes(t)] on strings *)
Definition stringIncludes (s t : string) : bool :=
  match index 0 t s with
  | Some _ => true
  | None => false
  end.

Definition isUndefined (v : JsonValue) : bool :=
  match v with
  | JUndefined => true
  | _ => false
  end.

(** [v === s] for a string [s] *)
Definition isString (s : string) (v : JsonValue) : bool :=
  match v with
  | JString t => t =? s
  | _ => false
  end.

(** [v !== true] *)
Definition isNotTrue (v : JsonValue) : bool :=
  match v with
  | JBoolean true => false
  | _ => true
  end.

Definition typeof (v : JsonValue) : string :=
  match v with
  | JUndefined => "undefined"
  | JBoolean _ => "boolean"
  | JNumber _ => "number"
  | JString _ => "string"
  | JNull | JArray _ | JObject _ => "object"
  end.

Definition isArray (v : JsonValue) : bool :=
  match v with
  | JArray _ => true
  | _ => false
  end.

Definition isNull (v : JsonValue) : bool :=
  match v with
  | JNull => true
  | _ => false
  end.

Definition indexKeys (n : nat) : list string :=
  map string_of_nat (seq 0 n).

Definition chars (s : string) : list string :=
  map (fun c => String c EmptyString) (list_ascii_of_string s).

(** [Object.entries(v)] *)
Definition entries (v : JsonValue) : Completion JsonObject :=
  match v with
  | JObject fields => Normal fields
  | JArray elems => Normal (combine (indexKeys (List.length elems)) elems)
  | JString s => Normal (combine (indexKeys (String.length s)) (map JString (chars s)))
  | JBoolean _ | JNumber _ => Normal []
  | JUndefined | JNull => TypeError
  end.

(** The names of the members of [Object.prototype], which every plain
    object inherits *)
Definition inheritedKey (key : string) : bool :=
  existsb (fun name => name =? key)
    ["constructor"; "hasOwnProperty"; "isPrototypeOf"; "propertyIsEnumerable";
     "toLocaleString"; "toString"; "valueOf"; "__proto__";
     "__defineGetter__"; "__defineSetter__"; "__lookupGetter__"; "__lookupSetter__"].

(** [key in v]: an own property, or for a plain object a member it
    inherits *)
Definition hasProperty (key : string) (v : JsonValue) : Completion bool :=
  match v with
  | JObject fields => Normal (has_key key fields || inheritedKey key)
  | JArray elems =>
      Normal ((key =? "length") || existsb (fun k => k =? key) (indexKeys (List.length elems)))
  | _ => TypeError
  end.

(** ** The runtime type classifier *)

Definition _getTypeOf (data : JsonValue) : string :=
  let typeString := typeof data in
  if typeString =? "object" then
    if isArray data then "array"
    else if isNull data then "null"
    else "object"
  else typeString.

(** ** The schema normalizer

    [strict] is the value of the process-wide flag when the call is made. *)

Definition arraySchema (items : JsonValue) : JsonValue :=
  JObject [("dataType", JString PropType.ARRAY); ("items", items)].

Definition unionOf (alternatives : list JsonValue) : JsonValue :=
  JObject [("oneOf", JArray alternatives)].

Section NormalizeParts.
(** The recursive calls [this._normalizeSchema(...)] *)
Context (normalize : Schema -> Completion JsonValue).

(** One turn of the loop over the entries of an implicit object schema *)
Definition normalizeShorthandProperty (entry : string * JsonValue)
  : Completion (string * JsonValue) :=
  let '(key, value) := entry in
  match value with
  | JArray elems =>
      items <- match elems with
               | [only] => normalize only
               | _ =>
                   alternatives <- mapM normalize elems ;;
                   Normal (unionOf alternatives)
               end ;;
      Normal (key, arraySchema items)
  | _ =>
      normalized <- normalize value ;;
      Normal (key, normalized)
  end.

(** One turn of the loop over [Object.entries(objSchema.properties)] *)
Definition normalizeProperty (entry : string * JsonValue)
  : Completion (string * JsonValue) :=
  let '(key, value) := entry in
  normalized <- normalize value ;;
  Normal (key, normalized).

(** That loop, by what [objSchema.properties] is: an object has its
    fields as entries, an array its elements under their indices, a
    string its characters (each normalizing as a bare type), a boolean or
    number none, and [Object.entries] throws on undefined and null. *)
Definition normalizeProperties (properties : JsonValue) : Completion JsonObject :=
  match properties with
  | JObject props => mapM normalizeProperty props
  | JArray elems =>
      normalized <- mapM normalize elems ;;
      Normal (combine (indexKeys (List.length elems)) normalized)
  | JString s =>
      Normal (combine (indexKeys (String.length s))
                (map (fun c => JObject [("dataType", JString c)]) (chars s)))
  | JBoolean _ | JNumber _ => Normal []
  | JUndefined | JNull => TypeError
  end.
End NormalizeParts.

Fixpoint _normalizeSchema (strict : bool) (schema : Schema) {struct schema}
  : Completion JsonValue :=
  match schema with
  | JString _ =>
      (* a bare PropType *)
      Normal (JObject [("dataType", schema)])
  | JArray elems =>
      if (1 <? List.length elems)%nat then
        alternatives <- mapM (_normalizeSchema strict) elems ;;
        Normal (arraySchema (unionOf alternatives))
      else
        (* schema[0] is undefined for the empty array, and undefined
           normalizes to itself *)
        items <- match elems with
                 | [] => Normal JUndefined
                 | firstItem :: _ => _normalizeSchema strict firstItem
                 end ;;
        Normal (arraySchema items)
  | JNull =>
      (* 'dataType' in null *)
      TypeError
  | JObject fields =>
      if negb (has_key "dataType" fields) && negb (has_key "oneOf" fields) then
        normalizedProperties <-
          mapM (normalizeShorthandProperty (_normalizeSchema strict)) fields ;;
        Normal (JObject [("dataType", JString PropType.OBJECT);
                         ("properties", JObject normalizedProperties);
                         ("additionalProperties", JBoolean (negb strict))])
      else if has_key "oneOf" fields then
        withField "oneOf"
          (fun oneOf =>
             match oneOf with
             | JArray elems =>
                 alternatives <- mapM (_normalizeSchema strict) elems ;;
                 Normal (JObject (setField "oneOf" (JArray alternatives) fields))
             | _ => TypeError (* oneOf.map is not a function *)
             end)
          TypeError fields
      else if has_key "properties" fields then
        withField "properties"
          (fun properties =>
             normalizedProperties <-
               normalizeProperties (_normalizeSchema strict) properties ;;
             Normal (JObject (setField "properties" (JObject normalizedProperties) fields)))
          TypeError fields
      else Normal schema
  | JUndefined | JBoolean _ | JNumber _ => Normal schema
  end.

(** ** The validation engine *)

Definition dquote : string := String "034"%char EmptyString.

(** [path ? `${path}.${key}` : key] *)
Definition propPath (path key : string) : string :=
  if path =? "" then key else path ++ "." ++ key.

(** [`${path}[${i}]`] *)
Definition itemPath (path : string) (i : nat) : string :=
  path ++ "[" ++ string_of_nat i ++ "]".

Definition unionError (path : string) (alternatives : nat) (received : string)
  : ValidationError :=
  {| path := path;
     expected := JString ("one of " ++ string_of_nat alternatives ++ " possible types");
     received := received;
     message := "Value does not match any of the allowed schemas" |}.

Definition allowedValuesError (path : string) (allowed : list JsonValue) (data : JsonValue)
  : ValidationError :=
  {| path := path;
     expected := JString ("one of [" ++ join ", " allowed ++ "]");
     received := toString data;
     message := "Value " ++ toString data ++ " is not in the allowed set of values" |}.

Definition typeMismatchError (path : string) (dataType : JsonValue) (type : string)
  : ValidationError :=
  {| path := path;
     expected := dataType;
     received := type;
     message := "Expected type " ++ toString dataType ++ " but received " ++ type |}.

Definition expectedObjectError (path type : string) : ValidationError :=
  {| path := path;
     expected := JString "object";
     received := type;
     message := "Expected object but received " ++ type |}.

Definition expectedArrayError (path type : string) : ValidationError :=
  {| path := path;
     expected := JString "array";
     received := type;
     message := "Expected array but received " ++ type |}.

Definition unexpectedPropertyError (path key propType : string) : ValidationError :=
  {| path := propPath path key;
     expected := JString "undefined";
     received := propType;
     message := "Unexpected property " ++ dquote ++ key ++ dquote |}.

(** [allowedValues && !allowedValues.includes(data)], and the error pushed
    when it holds.  The field is tested for truthiness only.  A non-empty
    string has [includes] but no [join]; other truthy values have neither. *)
Definition checkAllowedValues (allowedValues data : JsonValue) (path : string)
  : Completion (list ValidationError) :=
  if truthy allowedValues then
    match allowedValues with
    | JArray allowed =>
        if includes allowed data then Normal []
        else Normal [allowedValuesError path allowed data]
    | JString s =>
        if stringIncludes s (toString data) then Normal [] else TypeError
    | _ => TypeError
    end
  else Normal [].

(** [data as JsonObject], used once the data is known to be an object *)
Definition fieldsOf (data : JsonValue) : JsonObject :=
  match data with
  | JObject dataObj => dataObj
  | _ => []
  end.

Definition elementsOf (data : JsonValue) : list JsonValue :=
  match data with
  | JArray elems => elems
  | _ => []
  end.

(** [error.path !== path] and [error.path === path] *)
Definition pathDiffers (unionPath : string) (error : ValidationError) : bool :=
  negb (path error =? unionPath).

Definition pathEquals (unionPath : string) (error : ValidationError) : bool :=
  path error =? unionPath.

Section ValidateBody.
(** The recursive calls [this.validate(...)] of one activation. *)
Context (recur : JsonValue -> Schema -> string -> Completion (list ValidationError)).

(** The loop over [unionSchema.oneOf]: whether an alternative matched, and
    [allErrors] as collected up to the [break]. *)
Fixpoint tryAlternatives (data : JsonValue) (path : string) (alternatives : list JsonValue)
  : Completion (bool * list (list ValidationError)) :=
  match alternatives with
  | [] => Normal (false, [])
  | subSchema :: rest =>
      subErrors <- recur data subSchema path ;;
      match subErrors with
      | [] => Normal (true, [])
      | _ :: _ =>
          r <- tryAlternatives data path rest ;;
          Normal (fst r, subErrors :: snd r)
      end
  end.

Definition validateUnion (unionSchema : JsonObject) (data : JsonValue) (path : string)
  : Completion (list ValidationError) :=
  match get "oneOf" unionSchema with
  | JArray alternatives =>
      if isUndefined data then
        Normal [unionError path (List.length alternatives) "undefined"]
      else
        r <- tryAlternatives data path alternatives ;;
        let '(typeMatchFound, allErrors) := r in
        if typeMatchFound then
          checkAllowedValues (get "allowedValues" unionSchema) data path
        else
          let combinedErrors := List.concat allErrors in
          if (0 <? List.length combinedErrors)%nat then
            let hasPropertyErrors := existsb (pathDiffers path) combinedErrors in
            let hasTypeErrors := existsb (pathEquals path) combinedErrors in
            if hasPropertyErrors then
              Normal (filter (pathDiffers path) combinedErrors)
            else if hasTypeErrors then
              Normal [unionError path (List.length alternatives) (_getTypeOf data)]
            else Normal []
          else Normal []
  | _ =>
      (* not reached: _normalizeSchema leaves an array under oneOf
         (normalize_oneOf_is_array) *)
      TypeError
  end.

(** The loop over [Object.entries(objSchema.properties)] *)
Definition validateProperties (properties : JsonObject) (dataObj : JsonObject) (path : string)
  : Completion (list ValidationError) :=
  propErrors <-
    mapM (fun '(key, propSchema) =>
            recur (get key dataObj) propSchema (propPath path key)) properties ;;
  Normal (List.concat propErrors).

(** [Object.keys(dataObj).filter((key) => !(key in objSchema.properties))]
    and the errors pushed for these keys *)
Definition unexpectedProperties (properties : JsonValue) (dataObj : JsonObject) (path : string)
  : Completion (list ValidationError) :=
  flagged <-
    mapM (fun key =>
            present <- hasProperty key properties ;;
            Normal (key, present)) (map fst dataObj) ;;
  let unexpectedProps := map fst (filter (fun kp => negb (snd kp)) flagged) in
  Normal (map (fun key =>
                 unexpectedPropertyError path key (_getTypeOf (get key dataObj)))
            unexpectedProps).

(** The loop over the elements of the data *)
Definition validateItems (items : Schema) (elems : list JsonValue) (path : string)
  : Completion (list ValidationError) :=
  itemErrors <-
    mapM (fun '(i, item) => recur item items (itemPath path i))
      (combine (seq 0 (List.length elems)) elems) ;;
  Normal (List.concat itemErrors).

(** The array section of [validate], entered with the errors pushed so far *)
Definition validateArray (normalizedSchema : JsonObject) (data : JsonValue)
    (type path : string) (errors : list ValidationError)
  : Completion (list ValidationError) :=
  if isString PropType.ARRAY (get "dataType" normalizedSchema)
     && has_key "items" normalizedSchema then
    if negb (isArray data) then
      Normal (errors ++ [expectedArrayError path type])%list
    else
      itemErrors <- validateItems (get "items" normalizedSchema) (elementsOf data) path ;;
      Normal (errors ++ itemErrors)%list
  else Normal errors.

(** The object section of [validate], followed by the array section *)
Definition validateObject (normalizedSchema : JsonObject) (data : JsonValue)
    (type path : string) (errors : list ValidationError)
  : Completion (list ValidationError) :=
  if isString PropType.OBJECT (get "dataType" normalizedSchema)
     && has_key "properties" normalizedSchema then
    if negb (type =? "object") || isNull data then
      Normal (errors ++ [expectedObjectError path type])%list
    else
      let dataObj := fieldsOf data in
      let properties := get "properties" normalizedSchema in
      props <- entries properties ;;
      propErrors <- validateProperties props dataObj path ;;
      unexpected <-
        (if isNotTrue (get "additionalProperties" normalizedSchema) then
           unexpectedProperties properties dataObj path
         else Normal []) ;;
      validateArray normalizedSchema data type path
        (errors ++ propErrors ++ unexpected)%list
  else validateArray normalizedSchema data type path errors.

(** One activation of [validate] *)
Definition validateBody (strict : bool) (data : JsonValue) (schema : Schema) (path : string)
  : Completion (list ValidationError) :=
  normalized <- _normalizeSchema strict schema ;;
  match normalized with
  | JObject normalizedSchema =>
      if isUndefined data && truthy (get "optional" normalizedSchema) then Normal []
      else if has_key "oneOf" normalizedSchema then
        (* the union branch tests [optional] again, to the same effect *)
        validateUnion normalizedSchema data path
      else
        let type := _getTypeOf data in
        let dataType := get "dataType" normalizedSchema in
        if negb (isString type dataType) then
          Normal [typeMismatchError path dataType type]
        else
          valueErrors <-
            checkAllowedValues (get "allowedValues" normalizedSchema) data path ;;
          validateObject normalizedSchema data type path valueErrors
  | _ =>
      (* the schema normalized to undefined, a boolean or a number
         (normalize_result_shape): reading [optional] off undefined, or
         ['oneOf' in] a primitive, throws *)
      TypeError
  end.
End ValidateBody.

(** [validate(data, schema, path)] under the flag value [strict], with a
    budget of [fuel] nested activations. *)
Fixpoint validate (fuel : nat) (strict : bool) (data : JsonValue) (schema : Schema)
    (path : string) {struct fuel} : Completion (list ValidationError) :=
  match fuel with
  | O => OutOfFuel
  | S fuel' => validateBody (validate fuel' strict) strict data schema path
  end.

(** ** Structural induction on values *)

Section JsonValueInduction.
Variable P : JsonValue -> Prop.
Hypothesis Hundefined : P JUndefined.
Hypothesis Hnull : P JNull.
Hypothesis Hboolean : forall b, P (JBoolean b).
Hypothesis Hnumber : forall n, P (JNumber n).
Hypothesis Hstring : forall s, P (JString s).
Hypothesis Harray : forall elems, Forall P elems -> P (JArray elems).
Hypothesis Hobject : forall fields, Forall (fun kv => P (snd kv)) fields -> P (JObject fields).

Fixpoint JsonValue_ind (v : JsonValue) : P v :=
  match v with
  | JUndefined => Hundefined
  | JNull => Hnull
  | JBoolean b => Hboolean b
  | JNumber n => Hnumber n
  | JString s => Hstring s
  | JArray elems =>
      Harray elems
        ((fix all (l : list JsonValue) : Forall P l :=
            match l with
            | [] => Forall_nil P
            | x :: rest => Forall_cons x (JsonValue_ind x) (all rest)
            end) elems)
  | JObject fields =>
      Hobject fields
        ((fix all (l : JsonObject) : Forall (fun kv => P (snd kv)) l :=
            match l with
            | [] => Forall_nil _
            | kv :: rest => Forall_cons kv (JsonValue_ind (snd kv)) (all rest)
            end) fields)
  end.
End JsonValueInduction.

(** ** The flag as initialised, and the examples of the specification *)

(** [private static _strict: boolean = true] *)
Definition strictDefault : bool := true.

Definition fooSchema : Schema :=
  JObject [("foo", JString PropType.STRING)].

Definition fooData : JsonValue :=
  JObject [("foo", JString "bar"); ("extra", JNumber 123)].

Definition userSchema : Schema :=
  JObject [("dataType", JString PropType.OBJECT);
           ("properties",
            JObject [("user",
                      JObject [("dataType", JString PropType.OBJECT);
                               ("properties",
                                JObject [("name", JString PropType.STRING)])])])].

Definition userData : JsonValue :=
  JObject [("user", JObject [("name", JNumber 123)])].

Definition tagsSchema : Schema :=
  JObject [("tags", JArray [JString PropType.STRING])].

Definition tagsData : JsonValue :=
  JObject [("tags", JArray [JString "a"; JNumber 5])].

(** ** Equality of errors and the deduplication the specification names *)

Fixpoint valueEqb (a b : JsonValue) {struct a} : bool :=
  match a, b with
  | JUndefined, JUndefined => true
  | JNull, JNull => true
  | JBoolean x, JBoolean y => Bool.eqb x y
  | JNumber x, JNumber y => (x =? y)%Z
  | JString x, JString y => x =? y
  | JArray xs, JArray ys =>
      (fix all (l1 l2 : list JsonValue) : bool :=
         match l1, l2 with
         | [], [] => true
         | x :: r1, y :: r2 => valueEqb x y && all r1 r2
         | _, _ => false
         end) xs ys
  | JObject xs, JObject ys =>
      (fix all (l1 l2 : JsonObject) : bool :=
         match l1, l2 with
         | [], [] => true
         | (k1, x) :: r1, (k2, y) :: r2 => (k1 =? k2) && valueEqb x y && all r1 r2
         | _, _ => false
         end) xs ys
  | _, _ => false
  end.

Definition errorEqb (e1 e2 : ValidationError) : bool :=
  (path e1 =? path e2) && valueEqb (expected e1) (expected e2)
  && (received e1 =? received e2) && (message e1 =? message e2).

(** The specification's "deduplicated set, preserving first-seen order":
    an error equal to an earlier one is dropped.  The code has no such step;
    this function states what the specification describes. *)
Fixpoint dedupErrors (seen errors : list ValidationError) : list ValidationError :=
  match errors with
  | [] => []
  | e :: rest =>
      if existsb (errorEqb e) seen then dedupErrors seen rest
      else e :: dedupErrors (e :: seen) rest
  end.

(** Whether a value is an object carrying the given field *)
Definition carries (key : string) (v : JsonValue) : bool :=
  match v with
  | JObject fields => has_key key fields
  | _ => false
  end.

(** A union whose two alternatives report the same property error *)
Definition dupSchema : Schema :=
  JObject [("oneOf", JArray [JObject [("a", JString PropType.STRING)];
                             JObject [("a", JString PropType.STRING)]])].

Definition dupAlternative : Schema :=
  JObject [("dataType", JString PropType.OBJECT);
           ("properties", JObject [("a", JObject [("dataType", JString PropType.STRING)])]);
           ("additionalProperties", JBoolean false)].

Definition dupData : JsonValue := JObject [("a", JNumber 1)].

Definition dupError : ValidationError :=
  {| path := "a";
     expected := JString "string";
     received := "number";
     message := "Expected type string but received number" |}.

Definition stringOrNumber : Schema :=
  JObject [("oneOf", JArray [JString PropType.STRING; JString PropType.NUMBER])].

Definition emptyUnion : Schema := JObject [("oneOf", JArray [])].



Definition undefinedOrNothing : Schema :=
  JObject [("oneOf", JArray [JString PropType.UNDEFINED]); ("allowedValues", JArray [])].



(** ** The nodes of a canonical schema *)

(** The schema itself and, below it, the schemas under [items], [oneOf]
    and [properties]. *)
Fixpoint schemaNodes (schema : JsonValue) {struct schema} : list JsonValue :=
  schema ::
  match schema with
  | JObject fields =>
      (withField "items" (fun items => schemaNodes items) [] fields
       ++ withField "oneOf"
            (fun oneOf =>
               match oneOf with
               | JArray alternatives => flat_map schemaNodes alternatives
               | _ => []
               end) [] fields
       ++ withField "properties"
            (fun properties =>
               match properties with
               | JObject props => flat_map (fun kv => schemaNodes (snd kv)) props
               | _ => []
               end) [] fields)%list
  | _ => []
  end.

(** "Exactly one of [dataType] or [oneOf]" *)
Definition carriesExactlyOne (node : JsonValue) : bool :=
  xorb (carries "dataType" node) (carries "oneOf" node).

(** The shapes the normalizer turns into an object: a bare type, an array
    shorthand, or an object *)
Definition schemaShaped (schema : Schema) : bool :=
  match schema with
  | JString _ | JArray _ | JObject _ => true
  | _ => false
  end.

(** The full notation of an array of strings, as the README writes it *)
Definition explicitArray : Schema :=
  JObject [("dataType", JString PropType.ARRAY); ("items", JString PropType.STRING)].

(** An object carrying both reserved keys *)
Definition typedUnion : Schema :=
  JObject [("dataType", JString PropType.STRING);
           ("oneOf", JArray [JString PropType.NUMBER])].

(** The empty array shorthand, at the top and as a property *)
Definition emptyArraySchema : Schema := JArray [].

Definition emptyTagsSchema : Schema := JObject [("tags", JArray [])].

(** ** Predicates of the idempotence proof *)

(** Whatever [schema] normalizes to under one flag value is left as it is
    by a further normalization under another. *)
Definition settles (strict strict' : bool) (schema : Schema) : Prop :=
  forall n, _normalizeSchema strict schema = Normal n ->
            _normalizeSchema strict' n = Normal n.

Definition fixedPoint (strict' : bool) (n : JsonValue) : Prop :=
  _normalizeSchema strict' n = Normal n.

(** The same for the values one level down, which the branches for
    [oneOf], [properties] and array-valued properties normalize. *)
Definition childrenSettle (strict strict' : bool) (schema : Schema) : Prop :=
  match schema with
  | JArray elems => Forall (settles strict strict') elems
  | JObject props => Forall (fun kv => settles strict strict' (snd kv)) props
  | _ => True
  end.

(** ** A bound on the nesting of activations

    [rank schema] bounds the number of nested activations of [validate] on
    [schema]: normalization does not raise it, and the schemas of the
    recursive calls (alternatives, property schemas, the item schema) lie
    strictly below the normalized schema. *)

Section Rank.
Context (rank : JsonValue -> nat).

Definition rankOfAlternatives (oneOf : JsonValue) : nat :=
  match oneOf with
  | JArray alternatives => list_max (map rank alternatives)
  | _ => 0
  end.

Definition rankOfProperties (properties : JsonValue) : nat :=
  match properties with
  | JObject props => list_max (map (fun kv => rank (snd kv)) props)
  | JArray elems => list_max (map rank elems)
  | JString _ => 1
  | _ => 0
  end.
End Rank.

Fixpoint rank (schema : JsonValue) {struct schema} : nat :=
  match schema with
  | JString _ => 1
  | JArray elems => 2 + list_max (map rank elems)
  | JObject fields =>
      if negb (has_key "dataType" fields) && negb (has_key "oneOf" fields) then
        1 + list_max (map (fun kv => rank (snd kv)) fields)
      else
        1 + Nat.max (withField "items" rank 0 fields)
              (Nat.max (withField "oneOf" (rankOfAlternatives rank) 0 fields)
                 (withField "properties" (rankOfProperties rank) 0 fields))
  | _ => 0
  end.

(** What one [validate] call may do with the recursive calls it makes:
    schemas of rank below [bound] are answered. *)
Definition answersBelow (bound : nat)
    (recur : JsonValue -> Schema -> string -> Completion (list ValidationError)) : Prop :=
  forall data schema p, rank schema < bound -> recur data schema p <> OutOfFuel.

(** [recur'] answers as [recur] does wherever [recur] has an answer. *)
Definition extends
    (recur recur' : JsonValue -> Schema -> string -> Completion (list ValidationError))
  : Prop :=
  forall data schema p,
    recur data schema p <> OutOfFuel -> recur' data schema p = recur data schema p.

(** ** The error renderer *)

Definition newline : string := String "010"%char EmptyString.

(** [formatValue], the local function of [formatErrors].  The two
    [startsWith] tests return the string they were given, as the last line
    does. *)
Definition formatValue (value : JsonValue) : string :=
  if isNull value then "null"
  else if isUndefined value then "undefined"
  else
    let strValue := toString value in
    if strValue =? "[object Object]" then "object"
    else if strValue =? "[object Array]" then "array"
    else if prefix "one of " strValue then strValue
    else if prefix "one of [" strValue then strValue
    else strValue.

(** The line of one error: the callback given to [errors.map] *)
Definition formatError (index : nat) (error : ValidationError) : string :=
  let where_ :=
    if negb (path error =? "") then "at " ++ dquote ++ path error ++ dquote
    else "at root" in
  string_of_nat (index + 1) ++ ". " ++ where_ ++ ": " ++ message error
  ++ " (expected " ++ formatValue (expected error)
  ++ ", received " ++ formatValue (JString (received error)) ++ ")".

Definition formatErrors (errors : list ValidationError) : string :=
  if (List.length errors =? 0)%nat then "No validation errors"
  else
    joinStrings newline
      (map (fun '(index, error) => formatError index error)
         (combine (seq 0 (List.length errors)) errors)).

(** A schema on which validating a number throws: its [allowedValues] is a
    number, which has no [includes]. *)
Definition brokenNumber : Schema :=
  JObject [("dataType", JString PropType.NUMBER); ("allowedValues", JNumber 5)].

(** ** Well-formed schemas

    The schemas the types of the source describe, apart from the empty
    array shorthand in a schema position: a type name; a non-empty array
    shorthand of well-formed schemas; an implicit object whose values are
    well-formed (an array-valued property may be empty); or an object
    carrying [dataType] or [oneOf] whose [allowedValues], if any, is a
    list, whose [oneOf] is a list of well-formed schemas, and whose
    [properties] and [items], when present, are an object of well-formed
    schemas and a well-formed schema. *)

Definition allowedValuesOk (allowedValues : JsonValue) : bool :=
  negb (truthy allowedValues) || isArray allowedValues.

Section WellFormedParts.
Context (wellFormed : Schema -> bool).

Definition wellFormedAlternatives (oneOf : JsonValue) : bool :=
  match oneOf with
  | JArray alternatives => forallb wellFormed alternatives
  | _ => false
  end.

Definition wellFormedProperties (properties : JsonValue) : bool :=
  match properties with
  | JObject props => forallb (fun kv => wellFormed (snd kv)) props
  | _ => false
  end.

Definition wellFormedShorthandProperty (value : JsonValue) : bool :=
  match value with
  | JArray [] => true
  | _ => wellFormed value
  end.
End WellFormedParts.

Fixpoint wellFormed (schema : Schema) {struct schema} : bool :=
  match schema with
  | JString _ => true
  | JArray elems => negb (List.length elems =? 0)%nat && forallb wellFormed elems
  | JObject fields =>
      if negb (has_key "dataType" fields) && negb (has_key "oneOf" fields) then
        forallb (fun kv => wellFormedShorthandProperty wellFormed (snd kv)) fields
      else
        allowedValuesOk (get "allowedValues" fields)
        && (if has_key "oneOf" fields then
              withField "oneOf" (wellFormedAlternatives wellFormed) false fields
            else
              withField "properties" (wellFormedProperties wellFormed) true fields
              && withField "items" wellFormed true fields)
  | _ => false
  end.

(** What the engine needs of a normalized schema *)
Definition dispatchable (normalized : JsonValue) : Prop :=
  wellFormed normalized = true
  /\ carries "dataType" normalized || carries "oneOf" normalized = true.

Definition normalizesWell (strict : bool) (schema : Schema) : Prop :=
  wellFormed schema = true ->
  exists n, _normalizeSchema strict schema = Normal n /\ dispatchable n.

(** ** Schemas without object shorthand

    No implicit object schema occurs where the normalizer or the engine
    looks for a schema: below array shorthands, [oneOf], [properties] and
    [items]. *)

Section ShorthandFreeParts.
Context (shorthandFree : Schema -> bool).

Definition shorthandFreeAlternatives (oneOf : JsonValue) : bool :=
  match oneOf with
  | JArray alternatives => forallb shorthandFree alternatives
  | _ => true
  end.

Definition shorthandFreeProperties (properties : JsonValue) : bool :=
  match properties with
  | JObject props => forallb (fun kv => shorthandFree (snd kv)) props
  | JArray elems => forallb shorthandFree elems
  | _ => true
  end.
End ShorthandFreeParts.

Fixpoint shorthandFree (schema : Schema) {struct schema} : bool :=
  match schema with
  | JArray elems => forallb shorthandFree elems
  | JObject fields =>
      if negb (has_key "dataType" fields) && negb (has_key "oneOf" fields) then false
      else if has_key "oneOf" fields then
        withField "oneOf" (shorthandFreeAlternatives shorthandFree) true fields
      else
        withField "properties" (shorthandFreeProperties shorthandFree) true fields
        && withField "items" shorthandFree true fields
  | _ => true
  end.

(** Two ways of answering the recursive calls that agree on the schemas
    without object shorthand *)
Definition agreeOnShorthandFree
    (recur recur' : JsonValue -> Schema -> string -> Completion (list ValidationError))
  : Prop :=
  forall data schema p, shorthandFree schema = true -> recur data schema p = recur' data schema p.

(** The normalizer on a schema without object shorthand: the flag plays no
    part, and the result is again without object shorthand. *)
Definition flagFree (strict strict' : bool) (schema : Schema) : Prop :=
  shorthandFree schema = true ->
  _normalizeSchema strict schema = _normalizeSchema strict' schema
  /\ forall n, _normalizeSchema strict schema = Normal n -> shorthandFree n = true.

(** ** Where the model of property reads and of [String] is exact *)




(** ** Schemas whose normal form is canonical throughout *)

(** Every node carries exactly one of [dataType] and [oneOf]. *)
Definition canonical (schema : JsonValue) : bool :=
  forallb carriesExactlyOne (schemaNodes schema).

Definition canonicalAlternatives (oneOf : JsonValue) : bool :=
  match oneOf with
  | JArray alternatives => forallb canonical alternatives
  | _ => true
  end.

Definition canonicalProperties (properties : JsonValue) : bool :=
  match properties with
  | JObject props => forallb (fun kv => canonical (snd kv)) props
  | _ => true
  end.

Section AdmissibleParts.
Context (admissible : Schema -> bool).

Definition admissibleAlternatives (oneOf : JsonValue) : bool :=
  match oneOf with
  | JArray alternatives => forallb admissible alternatives
  | _ => false
  end.

Definition admissibleProperties (properties : JsonValue) : bool :=
  match properties with
  | JObject props => forallb (fun kv => admissible (snd kv)) props
  | _ => false
  end.

Definition admissibleShorthandProperty (value : JsonValue) : bool :=
  match value with
  | JArray elems => forallb admissible elems
  | _ => admissible value
  end.
End AdmissibleParts.

(** The surface schemas apart from the three ways a node of the normal
    form can miss "exactly one": a type name; a non-empty array shorthand;
    an implicit object (an array-valued property may be empty); a union
    that does not also carry [dataType]; an object carrying [dataType].
    What the normalizer hands back as written has to be canonical as it
    stands: every [items], and the [properties] kept beside a [oneOf]. *)
Fixpoint admissible (schema : Schema) {struct schema} : bool :=
  match schema with
  | JString _ => true
  | JArray elems => negb (List.length elems =? 0)%nat && forallb admissible elems
  | JObject fields =>
      if negb (has_key "dataType" fields) && negb (has_key "oneOf" fields) then
        forallb (fun kv => admissibleShorthandProperty admissible (snd kv)) fields
      else if has_key "oneOf" fields then
        negb (has_key "dataType" fields)
        && withField "oneOf" (admissibleAlternatives admissible) false fields
        && withField "items" canonical true fields
        && withField "properties" canonicalProperties true fields
      else
        withField "items" canonical true fields
        && withField "properties" (admissibleProperties admissible) true fields
  | _ => false
  end.

(** The claim of C4 for one schema, under one flag value *)
Definition normalizesCanonically (strict : bool) (schema : Schema) : Prop :=
  admissible schema = true ->
  forall n, _normalizeSchema strict schema = Normal n -> canonical n = true.

(** An implicit object with an array shorthand and a union inside, and its
    normal form in strict mode *)
Definition mixedSchema : Schema :=
  JObject [("id", JString PropType.NUMBER);
           ("tags", JArray [JString PropType.STRING]);
           ("owner",
            JObject [("oneOf",
                      JArray [JString PropType.STRING;
                              JObject [("name", JString PropType.STRING)]])])].

Definition mixedNormalForm : JsonValue :=
  JObject
    [("dataType", JString PropType.OBJECT);
     ("properties",
      JObject
        [("id", JObject [("dataType", JString PropType.NUMBER)]);
         ("tags",
          JObject [("dataType", JString PropType.ARRAY);
                   ("items", JObject [("dataType", JString PropType.STRING)])]);
         ("owner",
          JObject
            [("oneOf",
              JArray
                [JObject [("dataType", JString PropType.STRING)];
                 JObject
                   [("dataType", JString PropType.OBJECT);
                    ("properties",
                     JObject [("name", JObject [("dataType", JString PropType.STRING)])]);
                    ("additionalProperties", JBoolean false)]])])]);
     ("additionalProperties", JBoolean false)].



(** A union that also lists [properties] *)
Definition unionWithProperties : Schema :=
  JObject [("oneOf", JArray [JString PropType.STRING]);
           ("properties", JObject [("name", JString PropType.STRING)])].

(** ** Basic facts *)



Lemma bind_Normal {A B : Type} (c : Completion A) (k : A -> Completion B) (b : B) :
  bind c k = Normal b -> exists a, c = Normal a /\ k a = Normal b.
Proof.
  destruct c as [a| |]; simpl; intros H; try discriminate.
  exists a; split; [reflexivity | exact H].
Qed.

Lemma mapM_Forall2 {A B : Type} (f : A -> Completion B) (l : list A) (ys : list B) :
  mapM f l = Normal ys -> Forall2 (fun x y => f x = Normal y) l ys.
Proof.
  revert ys. induction l as [|x rest IH]; simpl; intros ys H.
  - injection H as <-. constructor.
  - apply bind_Normal in H as [y [Hy H]].
    apply bind_Normal in H as [ys' [Hys H]].
    injection H as <-. constructor; auto.
Qed.

Lemma Forall_concat {A : Type} (P : A -> Prop) (ls : list (list A)) :
  Forall (Forall P) ls -> Forall P (List.concat ls).
Proof.
  induction 1; simpl; [constructor | apply Forall_app; split; assumption].
Qed.

Lemma get_present (key : string) (fields : JsonObject) :
  get key fields <> JUndefined -> has_key key fields = true.
Proof.
  induction fields as [|[k v] rest IH]; simpl; intros H.
  - congruence.
  - destruct (k =? key); simpl; auto.
Qed.

Lemma withField_present {R : Type} (key : string) (found : JsonValue -> R) (missing : R)
    (fields : JsonObject) :
  has_key key fields = true ->
  withField key found missing fields = found (get key fields).
Proof.
  induction fields as [|[k v] rest IH]; simpl; intros H.
  - discriminate.
  - destruct (k =? key); simpl in *; auto.
Qed.

Lemma has_key_setField_same (key : string) (v : JsonValue) (fields : JsonObject) :
  has_key key (setField key v fields) = true.
Proof.
  induction fields as [|[k w] rest IH]; simpl.
  - now rewrite String.eqb_refl.
  - destruct (k =? key) eqn:E; simpl; rewrite E; simpl; auto.
Qed.

Lemma has_key_setField_other (key key' : string) (v : JsonValue) (fields : JsonObject) :
  (key' =? key) = false ->
  has_key key (setField key' v fields) = has_key key fields.
Proof.
  intros Hne.
  induction fields as [|[k w] rest IH]; simpl.
  - now rewrite Hne.
  - destruct (k =? key') eqn:E; simpl; [reflexivity | now rewrite IH].
Qed.

Lemma get_setField_same (key : string) (v : JsonValue) (fields : JsonObject) :
  get key (setField key v fields) = v.
Proof.
  induction fields as [|[k w] rest IH]; simpl.
  - now rewrite String.eqb_refl.
  - destruct (k =? key) eqn:E; simpl; rewrite E; auto.
Qed.

Lemma get_setField_other (key key' : string) (v : JsonValue) (fields : JsonObject) :
  (key' =? key) = false ->
  get key (setField key' v fields) = get key fields.
Proof.
  intros Hne.
  induction fields as [|[k w] rest IH]; simpl.
  - now rewrite Hne.
  - destruct (k =? key') eqn:E; simpl.
    + apply String.eqb_eq in E; subst k. now rewrite Hne.
    + now rewrite IH.
Qed.

Lemma validate_unfold (fuel : nat) (strict : bool) (data : JsonValue) (schema : Schema)
    (p : string) :
  validate (S fuel) strict data schema p
  = validateBody (validate fuel strict) strict data schema p.
Proof. reflexivity. Qed.

Lemma isUndefined_false (data : JsonValue) :
  data <> JUndefined -> isUndefined data = false.
Proof. destruct data; simpl; congruence. Qed.

(** Normalizing an object that carries [oneOf]. *)
Lemma normalize_union (strict : bool) (fields : JsonObject) (elems : list JsonValue) :
  get "oneOf" fields = JArray elems ->
  _normalizeSchema strict (JObject fields)
  = (alternatives <- mapM (_normalizeSchema strict) elems ;;
     Normal (JObject (setField "oneOf" (JArray alternatives) fields))).
Proof.
  intros Hget.
  assert (Hkey : has_key "oneOf" fields = true)
    by (apply get_present; rewrite Hget; discriminate).
  simpl. rewrite Hkey, andb_false_r.
  rewrite withField_present by exact Hkey.
  now rewrite Hget.
Qed.

Lemma forallb_Forall {A : Type} (f : A -> bool) (l : list A) :
  forallb f l = true <-> Forall (fun x => f x = true) l.
Proof. rewrite forallb_forall, Forall_forall. reflexivity. Qed.


(** ** The strict flag and implicit object schemas *)

Lemma normalize_implicit (strict : bool) (fields : JsonObject) :
  has_key "dataType" fields = false ->
  has_key "oneOf" fields = false ->
  _normalizeSchema strict (JObject fields)
  = (normalizedProperties <-
       mapM (normalizeShorthandProperty (_normalizeSchema strict)) fields ;;
     Normal (JObject [("dataType", JString PropType.OBJECT);
                      ("properties", JObject normalizedProperties);
                      ("additionalProperties", JBoolean (negb strict))])).
Proof.
  intros Hd Ho. simpl. rewrite Hd, Ho. reflexivity.
Qed.

(** C2: under the default flag the implicit schema [{ foo: STRING }] rejects
    [{ foo: "bar", extra: 123 }] with exactly one error, the unexpected
    property [extra]; under [strict = false] the same call returns no error;
    and every implicit object schema normalizes with [additionalProperties]
    equal to the negation of the flag. *)
Theorem strict_flag_governs_implicit_objects :
  (forall fuel,
      validate (2 + fuel) strictDefault fooData fooSchema ""
      = Normal [ {| path := "extra";
                    expected := JString "undefined";
                    received := "number";
                    message := "Unexpected property " ++ dquote ++ "extra" ++ dquote |} ])
  /\ (forall fuel, validate (2 + fuel) false fooData fooSchema "" = Normal [])
  /\ (forall strict fields normalizedSchema,
         has_key "dataType" fields = false ->
         has_key "oneOf" fields = false ->
         _normalizeSchema strict (JObject fields) = Normal (JObject normalizedSchema) ->
         get "additionalProperties" normalizedSchema = JBoolean (negb strict)).
Proof.
  split; [|split].
  - intros fuel. reflexivity.
  - intros fuel. reflexivity.
  - intros strict fields ns Hd Ho Hn.
    rewrite (normalize_implicit strict fields Hd Ho) in Hn. apply bind_Normal in Hn as [np [_ Hn]].
    injection Hn as <-. reflexivity.
Qed.

Lemma strict_flag_governs_implicit_objects_witness :
  get "additionalProperties"
    [("dataType", JString PropType.OBJECT);
     ("properties", JObject [("foo", JObject [("dataType", JString PropType.STRING)])]);
     ("additionalProperties", JBoolean false)]
  = JBoolean (negb true).
Proof.
  apply (proj2 (proj2 strict_flag_governs_implicit_objects) true
           [("foo", JString PropType.STRING)]); reflexivity.
Defined.

(** ** The branches of the normalizer *)

Lemma normalize_explicit_properties (strict : bool) (fields : JsonObject) :
  has_key "dataType" fields = true ->
  has_key "oneOf" fields = false ->
  has_key "properties" fields = true ->
  _normalizeSchema strict (JObject fields)
  = (normalizedProperties <-
       normalizeProperties (_normalizeSchema strict) (get "properties" fields) ;;
     Normal (JObject (setField "properties" (JObject normalizedProperties) fields))).
Proof.
  intros Hd Ho Hp. simpl. rewrite Hd, Ho, Hp. simpl.
  now rewrite withField_present.
Qed.

Lemma normalize_unchanged (strict : bool) (fields : JsonObject) :
  has_key "dataType" fields = true ->
  has_key "oneOf" fields = false ->
  has_key "properties" fields = false ->
  _normalizeSchema strict (JObject fields) = Normal (JObject fields).
Proof.
  intros Hd Ho Hp. simpl. now rewrite Hd, Ho, Hp.
Qed.

(** The loop over the properties is the loop over [Object.entries]. *)
Lemma normalizeProperties_entries (strict : bool) (properties : JsonValue) :
  normalizeProperties (_normalizeSchema strict) properties
  = (ents <- entries properties ;;
     mapM (normalizeProperty (_normalizeSchema strict)) ents).
Proof.
  destruct properties as [| | | |s|elems|props]; simpl; try reflexivity.
  - generalize (indexKeys (String.length s)) as keys.
    induction (chars s) as [|c rest IH]; intros keys.
    + destruct keys; reflexivity.
    + destruct keys as [|k keys]; [reflexivity|].
      simpl. rewrite <- IH. reflexivity.
  - assert (Hlen : List.length (indexKeys (List.length elems)) = List.length elems)
      by (unfold indexKeys; now rewrite length_map, length_seq).
    revert Hlen. generalize (indexKeys (List.length elems)) as keys.
    induction elems as [|x rest IH]; intros keys Hlen.
    + destruct keys; reflexivity.
    + destruct keys as [|k keys]; [discriminate|].
      simpl. destruct (_normalizeSchema strict x) as [y| |]; simpl; try reflexivity.
      injection Hlen as Hlen. rewrite <- (IH keys Hlen).
      destruct (mapM (_normalizeSchema strict) rest); reflexivity.
Qed.

(** ** Idempotence of the normalizer *)

Lemma mapM_fixed {A : Type} (f : A -> Completion A) (l : list A) :
  Forall (fun x => f x = Normal x) l -> mapM f l = Normal l.
Proof.
  induction 1 as [|x rest Hx _ IH]; simpl; [reflexivity|].
  now rewrite Hx, IH.
Qed.

Lemma mapM_normalizeProperty_fixed (normalize : Schema -> Completion JsonValue)
    (props : JsonObject) :
  Forall (fun kv => normalize (snd kv) = Normal (snd kv)) props ->
  mapM (normalizeProperty normalize) props = Normal props.
Proof.
  intros H. apply mapM_fixed.
  eapply Forall_impl; [|exact H].
  intros [k v] Hv. simpl in *. now rewrite Hv.
Qed.

Lemma setField_twice (key : string) (v : JsonValue) (fields : JsonObject) :
  setField key v (setField key v fields) = setField key v fields.
Proof.
  induction fields as [|[k w] rest IH]; simpl.
  - now rewrite String.eqb_refl.
  - destruct (k =? key) eqn:E; simpl; rewrite E; [reflexivity | now rewrite IH].
Qed.

Lemma Forall_get (R : JsonValue -> Prop) (key : string) (fields : JsonObject) :
  Forall (fun kv => R (snd kv)) fields ->
  has_key key fields = true ->
  R (get key fields).
Proof.
  induction 1 as [|[k v] rest Hv _ IH]; simpl; [discriminate|].
  destruct (k =? key); simpl; auto.
Qed.

Lemma Forall_combine_snd {A B : Type} (R : B -> Prop) (keys : list A) (l : list B) :
  Forall R l -> Forall (fun kv => R (snd kv)) (combine keys l).
Proof.
  intros H. revert keys.
  induction H as [|x rest Hx _ IH]; intros [|k keys]; simpl; constructor; auto.
Qed.

Lemma normalize_arraySchema (strict : bool) (items : JsonValue) :
  _normalizeSchema strict (arraySchema items) = Normal (arraySchema items).
Proof. reflexivity. Qed.

Lemma normalize_leaf (strict : bool) (dataType : JsonValue) :
  _normalizeSchema strict (JObject [("dataType", dataType)])
  = Normal (JObject [("dataType", dataType)]).
Proof. reflexivity. Qed.

Section Idempotence.
Variables strict strict' : bool.

Lemma settled_results (elems normalized : list JsonValue) :
  Forall (settles strict strict') elems ->
  mapM (_normalizeSchema strict) elems = Normal normalized ->
  Forall (fixedPoint strict') normalized.
Proof.
  intros Hall Hmap. apply mapM_Forall2 in Hmap. revert Hall.
  induction Hmap as [|x y xs ys Hxy _ IH]; intros Hall; [constructor|].
  inversion Hall as [|? ? Hx Hrest]; subst. constructor.
  - exact (Hx y Hxy).
  - exact (IH Hrest).
Qed.

Lemma settles_array (elems : list JsonValue) : settles strict strict' (JArray elems).
Proof.
  intros n Hn. simpl in Hn.
  destruct (1 <? List.length elems)%nat.
  - apply bind_Normal in Hn as [alternatives [_ Hn]].
    injection Hn as <-. apply normalize_arraySchema.
  - apply bind_Normal in Hn as [items [_ Hn]].
    injection Hn as <-. apply normalize_arraySchema.
Qed.

Lemma settled_shorthand (fields normalizedProperties : JsonObject) :
  Forall (fun kv => settles strict strict' (snd kv)) fields ->
  mapM (normalizeShorthandProperty (_normalizeSchema strict)) fields
  = Normal normalizedProperties ->
  Forall (fun kv => fixedPoint strict' (snd kv)) normalizedProperties.
Proof.
  intros Hall Hmap. apply mapM_Forall2 in Hmap. revert Hall.
  induction Hmap as [|[key value] [k n] xs ys Hxy _ IH]; intros Hall; [constructor|].
  inversion Hall as [|? ? Hvalue Hrest]; subst. constructor; [|exact (IH Hrest)].
  simpl in *.
  assert (Hother : (normalized <- _normalizeSchema strict value ;; Normal (key, normalized))
                   = Normal (k, n) -> fixedPoint strict' n).
  { intros H. apply bind_Normal in H as [n' [Hn' H]].
    injection H as _ <-. now apply Hvalue. }
  destruct value; try (now apply Hother).
  apply bind_Normal in Hxy as [items [_ Hxy]].
  injection Hxy as _ <-. apply normalize_arraySchema.
Qed.

Lemma settled_properties (properties : JsonValue) (normalizedProperties : JsonObject) :
  childrenSettle strict strict' properties ->
  normalizeProperties (_normalizeSchema strict) properties = Normal normalizedProperties ->
  Forall (fun kv => fixedPoint strict' (snd kv)) normalizedProperties.
Proof.
  destruct properties as [| | | |s|elems|props]; simpl; intros Hall Hn;
    try discriminate; try (injection Hn as <-; constructor).
  - injection Hn as <-. apply Forall_combine_snd.
    apply Forall_forall. intros v Hv. apply in_map_iff in Hv as [c [<- _]].
    apply normalize_leaf.
  - apply bind_Normal in Hn as [normalized [Hmap Hn]]. injection Hn as <-.
    apply Forall_combine_snd. eapply settled_results; eassumption.
  - apply mapM_Forall2 in Hn. revert Hall.
    induction Hn as [|[key value] [k n] xs ys Hxy _ IH]; intros Hall; [constructor|].
    inversion Hall as [|? ? Hvalue Hrest]; subst. constructor; [|exact (IH Hrest)].
    simpl in *. apply bind_Normal in Hxy as [n' [Hn' Hxy]].
    injection Hxy as _ <-. now apply Hvalue.
Qed.

Lemma settles_object (fields : JsonObject) :
  Forall (fun kv => settles strict strict' (snd kv)
                    /\ childrenSettle strict strict' (snd kv)) fields ->
  settles strict strict' (JObject fields).
Proof.
  intros Hall n Hn.
  assert (Hvalues : Forall (fun kv => settles strict strict' (snd kv)) fields)
    by (eapply Forall_impl; [|exact Hall]; now intros kv [H _]).
  destruct (has_key "oneOf" fields) eqn:Ho.
  - (* a union *)
    pose proof (Forall_get
                  (fun v => settles strict strict' v /\ childrenSettle strict strict' v)
                  "oneOf" _ Hall Ho) as [_ Hone].
    assert (Hstep := Hn). simpl in Hstep. rewrite Ho, andb_false_r in Hstep.
    rewrite withField_present in Hstep by exact Ho.
    destruct (get "oneOf" fields) as [| | | | |elems|] eqn:Hget; try discriminate.
    apply bind_Normal in Hstep as [alternatives [Hmap Hstep]].
    injection Hstep as <-.
    rewrite (normalize_union strict' _ alternatives) by apply get_setField_same.
    rewrite mapM_fixed by (eapply settled_results; eassumption).
    simpl. now rewrite setField_twice.
  - destruct (has_key "dataType" fields) eqn:Hd.
    + destruct (has_key "properties" fields) eqn:Hp.
      * (* explicit properties *)
        pose proof (Forall_get
                      (fun v => settles strict strict' v /\ childrenSettle strict strict' v)
                      "properties" _ Hall Hp) as [_ Hprops].
        rewrite (normalize_explicit_properties _ _ Hd Ho Hp) in Hn.
        apply bind_Normal in Hn as [normalizedProperties [Hnp Hn]].
        injection Hn as <-.
        rewrite normalize_explicit_properties.
        -- rewrite get_setField_same. simpl.
           rewrite mapM_normalizeProperty_fixed
             by (eapply settled_properties; eassumption).
           simpl. now rewrite setField_twice.
        -- now rewrite has_key_setField_other.
        -- now rewrite has_key_setField_other.
        -- apply has_key_setField_same.
      * (* left as it is *)
        rewrite (normalize_unchanged _ _ Hd Ho Hp) in Hn. injection Hn as <-.
        now apply normalize_unchanged.
    + (* an implicit object schema *)
      rewrite (normalize_implicit _ _ Hd Ho) in Hn.
      apply bind_Normal in Hn as [normalizedProperties [Hnp Hn]].
      injection Hn as <-.
      rewrite normalize_explicit_properties by reflexivity.
      change (get "properties" _) with (JObject normalizedProperties). simpl.
      rewrite mapM_normalizeProperty_fixed
        by (eapply settled_shorthand; eassumption).
      reflexivity.
Qed.

Lemma normalize_settles (schema : Schema) :
  settles strict strict' schema /\ childrenSettle strict strict' schema.
Proof.
  induction schema as [| | | | |elems IH|fields IH] using JsonValue_ind.
  1-5: split; [|exact I]; intros result Hn; simpl in Hn; try discriminate;
    injection Hn as <-; reflexivity.
  - split; [apply settles_array|].
    eapply Forall_impl; [|exact IH]. now intros v [H _].
  - split; [now apply settles_object|].
    eapply Forall_impl; [|exact IH]. now intros kv [H _].
Qed.
End Idempotence.

(** C3: normalizing what the normalizer returned gives it back unchanged,
    whatever the flag was at the first call and is at the second; when the
    first call throws, so does the composition. *)
Theorem normalize_idempotent :
  forall strict strict' schema,
    (normalized <- _normalizeSchema strict schema ;; _normalizeSchema strict' normalized)
    = _normalizeSchema strict schema.
Proof.
  intros strict strict' schema.
  destruct (_normalizeSchema strict schema) as [n| |] eqn:Hn; simpl; try reflexivity.
  exact (proj1 (normalize_settles strict strict' schema) n Hn).
Qed.

(** ** The shape of a normalized schema *)

(** The root of what the normalizer returns for a bare type, an array
    shorthand or an object carries [dataType] or [oneOf], and carries both
    only when the schema given carried both. *)
Lemma normalized_root_shape :
  forall strict schema normalized,
    _normalizeSchema strict schema = Normal normalized ->
    schemaShaped schema = true ->
    carries "dataType" normalized || carries "oneOf" normalized = true
    /\ (carries "dataType" normalized && carries "oneOf" normalized = true ->
        carries "dataType" schema && carries "oneOf" schema = true).
Proof.
  intros strict schema n Hn Hshape.
  destruct schema as [| | | |s|elems|fields]; try discriminate.
  - injection Hn as <-. split; [reflexivity | discriminate].
  - simpl in Hn. destruct (1 <? List.length elems)%nat;
      apply bind_Normal in Hn as [x [_ Hn]]; injection Hn as <-;
      (split; [reflexivity | discriminate]).
  - destruct (has_key "oneOf" fields) eqn:Ho.
    + assert (Hstep := Hn). simpl in Hstep. rewrite Ho, andb_false_r in Hstep.
      rewrite withField_present in Hstep by exact Ho.
      destruct (get "oneOf" fields) as [| | | | |alts|]; try discriminate.
      apply bind_Normal in Hstep as [alternatives [_ Hstep]]. injection Hstep as <-.
      simpl. rewrite has_key_setField_same, has_key_setField_other by reflexivity.
      rewrite Ho. split; [apply orb_true_r | trivial].
    + destruct (has_key "dataType" fields) eqn:Hd.
      * destruct (has_key "properties" fields) eqn:Hp.
        -- rewrite (normalize_explicit_properties _ _ Hd Ho Hp) in Hn.
           apply bind_Normal in Hn as [np [_ Hn]]. injection Hn as <-.
           simpl. rewrite !has_key_setField_other by reflexivity.
           rewrite Hd, Ho. split; [reflexivity | discriminate].
        -- rewrite (normalize_unchanged _ _ Hd Ho Hp) in Hn. injection Hn as <-.
           simpl. rewrite Hd, Ho. split; [reflexivity | discriminate].
      * rewrite (normalize_implicit _ _ Hd Ho) in Hn.
        apply bind_Normal in Hn as [np [_ Hn]]. injection Hn as <-.
        split; [reflexivity | discriminate].
Qed.

(** The claim as worded fails below the root and at the root: an explicit
    [items] is returned as written, here a bare type that carries neither
    field; the empty array shorthand leaves [undefined] under [items]; an
    object carrying both fields keeps both; and the [properties] listed
    beside a [oneOf] are returned as written. *)
Lemma normalized_node_without_dataType_or_oneOf :
  _normalizeSchema strictDefault explicitArray = Normal explicitArray
  /\ In (JString PropType.STRING) (schemaNodes explicitArray)
  /\ carriesExactlyOne (JString PropType.STRING) = false
  /\ ~ Forall (fun node => carriesExactlyOne node = true) (schemaNodes explicitArray)
  /\ _normalizeSchema strictDefault (JArray []) = Normal (arraySchema JUndefined)
  /\ ~ Forall (fun node => carriesExactlyOne node = true)
         (schemaNodes (arraySchema JUndefined))
  /\ _normalizeSchema strictDefault typedUnion
     = Normal (JObject [("dataType", JString PropType.STRING);
                        ("oneOf", JArray [JObject [("dataType", JString PropType.NUMBER)]])])
  /\ carriesExactlyOne
       (JObject [("dataType", JString PropType.STRING);
                 ("oneOf", JArray [JObject [("dataType", JString PropType.NUMBER)]])])
     = false
  /\ _normalizeSchema strictDefault unionWithProperties
     = Normal (JObject [("oneOf", JArray [JObject [("dataType", JString PropType.STRING)]]);
                        ("properties", JObject [("name", JString PropType.STRING)])])
  /\ In (JString PropType.STRING)
       (schemaNodes
          (JObject [("oneOf", JArray [JObject [("dataType", JString PropType.STRING)]]);
                    ("properties", JObject [("name", JString PropType.STRING)])])).
Proof.
  repeat split; try reflexivity.
  - right. left. reflexivity.
  - intros H. inversion H as [|? ? _ Hrest]; subst.
    inversion Hrest as [|? ? Hitems _]; subst. discriminate.
  - intros H. inversion H as [|? ? _ Hrest]; subst.
    inversion Hrest as [|? ? Hitems _]; subst. discriminate.
  - right. right. left. reflexivity.
Qed.

(** The normalizer returns an object, or hands back [undefined], a boolean
    or a number as given; [validate] throws on the latter. *)
Lemma normalize_result_shape (strict : bool) (schema : Schema) (normalized : JsonValue) :
  _normalizeSchema strict schema = Normal normalized ->
  match normalized with
  | JObject _ | JUndefined | JBoolean _ | JNumber _ => True
  | _ => False
  end.
Proof.
  intros Hn.
  destruct schema as [| | | |s|elems|fields]; simpl in Hn; try discriminate;
    try (injection Hn as <-; exact I).
  - destruct (1 <? List.length elems)%nat;
      apply bind_Normal in Hn as [x [_ Hn]]; injection Hn as <-; exact I.
  - destruct (negb (has_key "dataType" fields) && negb (has_key "oneOf" fields)).
    { apply bind_Normal in Hn as [np [_ Hn]]. injection Hn as <-. exact I. }
    destruct (has_key "oneOf" fields) eqn:Ho.
    { rewrite withField_present in Hn by exact Ho.
      destruct (get "oneOf" fields); try discriminate.
      apply bind_Normal in Hn as [alts [_ Hn]]. injection Hn as <-. exact I. }
    destruct (has_key "properties" fields) eqn:Hp.
    { rewrite withField_present in Hn by exact Hp.
      apply bind_Normal in Hn as [np [_ Hn]]. injection Hn as <-. exact I. }
    injection Hn as <-. exact I.
Qed.

(** Under [oneOf] the normalizer leaves an array, the result of [map]. *)
Lemma normalize_oneOf_is_array (strict : bool) (schema : Schema) (ns : JsonObject) :
  _normalizeSchema strict schema = Normal (JObject ns) ->
  has_key "oneOf" ns = true ->
  exists alternatives, get "oneOf" ns = JArray alternatives.
Proof.
  intros Hn Hkey.
  destruct schema as [| | | |s|elems|fields]; simpl in Hn; try discriminate.
  - injection Hn as <-. discriminate.
  - destruct (1 <? List.length elems)%nat;
      apply bind_Normal in Hn as [x [_ Hn]]; injection Hn as <-; discriminate.
  - destruct (negb (has_key "dataType" fields) && negb (has_key "oneOf" fields)).
    { apply bind_Normal in Hn as [np [_ Hn]]. injection Hn as <-. discriminate. }
    destruct (has_key "oneOf" fields) eqn:Ho.
    { rewrite withField_present in Hn by exact Ho.
      destruct (get "oneOf" fields); try discriminate.
      apply bind_Normal in Hn as [alts [_ Hn]]. injection Hn as <-.
      exists alts. apply get_setField_same. }
    destruct (has_key "properties" fields) eqn:Hp.
    { rewrite withField_present in Hn by exact Hp.
      apply bind_Normal in Hn as [np [_ Hn]]. injection Hn as <-.
      rewrite has_key_setField_other in Hkey by reflexivity. congruence. }
    injection Hn as <-. congruence.
Qed.

(** ** What the classifier guarantees *)

Lemma getTypeOf_object (data : JsonValue) :
  _getTypeOf data = "object" -> exists dataObj, data = JObject dataObj.
Proof.
  destruct data; try (cbv; discriminate).
  intros _. eexists; reflexivity.
Qed.

Lemma getTypeOf_array (data : JsonValue) :
  _getTypeOf data = "array" -> exists elems, data = JArray elems.
Proof.
  destruct data; try (cbv; discriminate).
  intros _. eexists; reflexivity.
Qed.

Lemma isString_eq (s : string) (v : JsonValue) :
  isString s v = true -> v = JString s.
Proof.
  destruct v; simpl; try discriminate.
  intros H. apply String.eqb_eq in H. now subst.
Qed.

Lemma isString_unique (s t : string) (v : JsonValue) :
  isString s v = true -> isString t v = true -> s = t.
Proof.
  intros Hs Ht. apply isString_eq in Hs. apply isString_eq in Ht. congruence.
Qed.

(** The guard of the object section is false whenever the section is
    entered after the type check. *)
Lemma object_guard_false (data dataType : JsonValue) :
  isString (_getTypeOf data) dataType = true ->
  isString PropType.OBJECT dataType = true ->
  negb (_getTypeOf data =? "object") || isNull data = false.
Proof.
  intros Ht Ho.
  pose proof (isString_unique _ _ _ Ht Ho) as Htype.
  destruct (getTypeOf_object data Htype) as [dataObj ->].
  reflexivity.
Qed.

(** Likewise for the guard of the array section. *)
Lemma array_guard_false (data dataType : JsonValue) :
  isString (_getTypeOf data) dataType = true ->
  isString PropType.ARRAY dataType = true ->
  negb (isArray data) = false.
Proof.
  intros Ht Ha.
  pose proof (isString_unique _ _ _ Ht Ha) as Htype.
  destruct (getTypeOf_array data Htype) as [elems ->].
  reflexivity.
Qed.

(** ** An invariant of every returned error *)

Lemma checkAllowedValues_cases (allowedValues data : JsonValue) (p : string)
    (errs : list ValidationError) :
  checkAllowedValues allowedValues data p = Normal errs ->
  errs = [] \/ exists allowed, allowedValues = JArray allowed
                               /\ errs = [allowedValuesError p allowed data].
Proof.
  unfold checkAllowedValues.
  destruct (truthy allowedValues); [|intros H; injection H as <-; now left].
  destruct allowedValues; try discriminate.
  - destruct (stringIncludes s (toString data)); [|discriminate].
    intros H; injection H as <-; now left.
  - destruct (includes elems data); intros H; injection H as <-.
    + now left.
    + right. eexists; split; reflexivity.
Qed.

Section ErrorInvariant.
Variable Q : string -> ValidationError -> Prop.
Hypothesis Q_union : forall p n r, Q p (unionError p n r).
Hypothesis Q_allowed : forall p allowed data, Q p (allowedValuesError p allowed data).
Hypothesis Q_mismatch : forall p dataType type, Q p (typeMismatchError p dataType type).
Hypothesis Q_unexpected : forall p key type, Q p (unexpectedPropertyError p key type).
Hypothesis Q_prop : forall p key e, Q (propPath p key) e -> Q p e.
Hypothesis Q_item : forall p i e, Q (itemPath p i) e -> Q p e.

Section OneActivation.
Variable recur : JsonValue -> Schema -> string -> Completion (list ValidationError).
Hypothesis recur_ok :
  forall data schema p errs, recur data schema p = Normal errs -> Forall (Q p) errs.

Lemma tryAlternatives_invariant (data : JsonValue) (p : string)
    (alternatives : list JsonValue) (found : bool)
    (allErrors : list (list ValidationError)) :
  tryAlternatives recur data p alternatives = Normal (found, allErrors) ->
  Forall (Forall (Q p)) allErrors.
Proof.
  revert found allErrors.
  induction alternatives as [|subSchema rest IH]; simpl; intros found allErrors H.
  - injection H as <- <-. constructor.
  - apply bind_Normal in H as [subErrors [Hsub H]].
    destruct subErrors as [|e subErrors].
    + injection H as <- <-. constructor.
    + apply bind_Normal in H as [[found' all'] [Hrest H]].
      injection H as <- <-. simpl. constructor.
      * eapply recur_ok; eassumption.
      * eapply IH; eassumption.
Qed.

Lemma validateUnion_invariant (unionSchema : JsonObject) (data : JsonValue) (p : string)
    (errs : list ValidationError) :
  validateUnion recur unionSchema data p = Normal errs -> Forall (Q p) errs.
Proof.
  unfold validateUnion.
  destruct (get "oneOf" unionSchema) as [| | | | |alternatives|]; try discriminate.
  destruct (isUndefined data).
  - intros H; injection H as <-. repeat constructor. apply Q_union.
  - intros H. apply bind_Normal in H as [[found allErrors] [Hloop H]].
    apply tryAlternatives_invariant in Hloop.
    destruct found.
    + apply checkAllowedValues_cases in H as [-> | [allowed [_ ->]]].
      * constructor.
      * repeat constructor. apply Q_allowed.
    + apply Forall_concat in Hloop.
      destruct (0 <? List.length (List.concat allErrors))%nat;
        [|injection H as <-; constructor].
      destruct (existsb (pathDiffers p) (List.concat allErrors)).
      * injection H as <-.
        apply Forall_forall. intros e He. apply filter_In in He as [He _].
        rewrite Forall_forall in Hloop. auto.
      * destruct (existsb (pathEquals p) (List.concat allErrors));
          injection H as <-; repeat constructor. apply Q_union.
Qed.

Lemma validateProperties_invariant (properties dataObj : JsonObject) (p : string)
    (errs : list ValidationError) :
  validateProperties recur properties dataObj p = Normal errs -> Forall (Q p) errs.
Proof.
  unfold validateProperties. intros H.
  apply bind_Normal in H as [propErrors [Hmap H]]. injection H as <-.
  apply mapM_Forall2 in Hmap. apply Forall_concat.
  induction Hmap as [|[key propSchema] es ? ? Hx _ IH]; constructor; auto.
  apply recur_ok in Hx. eapply Forall_impl; [|exact Hx].
  intros e. apply Q_prop.
Qed.

Lemma unexpectedProperties_invariant (properties : JsonValue) (dataObj : JsonObject)
    (p : string) (errs : list ValidationError) :
  unexpectedProperties properties dataObj p = Normal errs -> Forall (Q p) errs.
Proof.
  unfold unexpectedProperties. intros H.
  apply bind_Normal in H as [flagged [_ H]]. injection H as <-.
  apply Forall_forall. intros e He. apply in_map_iff in He as [key [<- _]].
  apply Q_unexpected.
Qed.

Lemma validateItems_invariant (items : Schema) (elems : list JsonValue) (p : string)
    (errs : list ValidationError) :
  validateItems recur items elems p = Normal errs -> Forall (Q p) errs.
Proof.
  unfold validateItems. intros H.
  apply bind_Normal in H as [itemErrors [Hmap H]]. injection H as <-.
  apply mapM_Forall2 in Hmap. apply Forall_concat.
  induction Hmap as [|[i item] es ? ? Hx _ IH]; constructor; auto.
  apply recur_ok in Hx. eapply Forall_impl; [|exact Hx].
  intros e. apply Q_item.
Qed.

Lemma validateArray_invariant (normalizedSchema : JsonObject) (data : JsonValue)
    (p : string) (errors errs : list ValidationError) :
  isString (_getTypeOf data) (get "dataType" normalizedSchema) = true ->
  Forall (Q p) errors ->
  validateArray recur normalizedSchema data (_getTypeOf data) p errors = Normal errs ->
  Forall (Q p) errs.
Proof.
  intros Htype Herrors. unfold validateArray.
  destruct (isString PropType.ARRAY (get "dataType" normalizedSchema)) eqn:Ha;
    simpl; [|intros H; injection H as <-; exact Herrors].
  destruct (has_key "items" normalizedSchema);
    [|intros H; injection H as <-; exact Herrors].
  rewrite (array_guard_false _ _ Htype Ha).
  intros H. apply bind_Normal in H as [itemErrors [Hitems H]]. injection H as <-.
  apply Forall_app; split; [exact Herrors|].
  eapply validateItems_invariant; eassumption.
Qed.

Lemma validateObject_invariant (normalizedSchema : JsonObject) (data : JsonValue)
    (p : string) (errors errs : list ValidationError) :
  isString (_getTypeOf data) (get "dataType" normalizedSchema) = true ->
  Forall (Q p) errors ->
  validateObject recur normalizedSchema data (_getTypeOf data) p errors = Normal errs ->
  Forall (Q p) errs.
Proof.
  intros Htype Herrors. unfold validateObject.
  destruct (isString PropType.OBJECT (get "dataType" normalizedSchema)) eqn:Ho;
    simpl; [|now apply validateArray_invariant].
  destruct (has_key "properties" normalizedSchema);
    [|now apply validateArray_invariant].
  rewrite (object_guard_false _ _ Htype Ho).
  intros H.
  apply bind_Normal in H as [props [_ H]].
  apply bind_Normal in H as [propErrors [Hprops H]].
  apply bind_Normal in H as [unexpected [Hunexpected H]].
  apply validateArray_invariant in H; [exact H | exact Htype |].
  apply Forall_app; split; [exact Herrors|].
  apply Forall_app; split.
  - eapply validateProperties_invariant; eassumption.
  - destruct (isNotTrue (get "additionalProperties" normalizedSchema)).
    + eapply unexpectedProperties_invariant; eassumption.
    + injection Hunexpected as <-. constructor.
Qed.

Lemma validateBody_invariant (strict : bool) (data : JsonValue) (schema : Schema)
    (p : string) (errs : list ValidationError) :
  validateBody recur strict data schema p = Normal errs -> Forall (Q p) errs.
Proof.
  unfold validateBody. intros H.
  apply bind_Normal in H as [normalized [_ H]].
  destruct normalized as [| | | | | |ns]; try discriminate.
  destruct (isUndefined data && truthy (get "optional" ns));
    [injection H as <-; constructor|].
  destruct (has_key "oneOf" ns); [now apply validateUnion_invariant in H|].
  destruct (isString (_getTypeOf data) (get "dataType" ns)) eqn:Htype; simpl in H.
  - apply bind_Normal in H as [valueErrors [Hvalue H]].
    apply validateObject_invariant in H; [exact H | exact Htype |].
    apply checkAllowedValues_cases in Hvalue as [-> | [allowed [_ ->]]].
    + constructor.
    + repeat constructor. apply Q_allowed.
  - injection H as <-. repeat constructor. apply Q_mismatch.
Qed.
End OneActivation.

Lemma validate_errors_invariant (fuel : nat) (strict : bool) :
  forall data schema p errs,
    validate fuel strict data schema p = Normal errs -> Forall (Q p) errs.
Proof.
  induction fuel as [|fuel IH]; intros data schema p errs H.
  - discriminate.
  - rewrite validate_unfold in H.
    eapply validateBody_invariant; [exact IH | exact H].
Qed.
End ErrorInvariant.

(** ** Error paths *)

Lemma prefix_app (p s : string) : prefix p (p ++ s) = true.
Proof.
  induction p as [|c p IH]; simpl.
  - now destruct s.
  - destruct (ascii_dec c c) as [_|Hne]; [exact IH | now elim Hne].
Qed.





(** ** The unreachable branch of the object section *)

(** C9: when the object section is entered, the type check before it has
    established that the data classifies as [object], so it is neither
    [null] nor an array and the guard of the "Expected object" branch is
    false; accordingly no error returned by [validate] carries that
    message. *)
Theorem expected_object_error_unreachable :
  (forall data dataType,
      isString (_getTypeOf data) dataType = true ->
      isString PropType.OBJECT dataType = true ->
      _getTypeOf data = "object" /\ isNull data = false /\ isArray data = false
      /\ negb (_getTypeOf data =? "object") || isNull data = false)
  /\ (forall fuel strict data schema p errs e,
         validate fuel strict data schema p = Normal errs ->
         In e errs ->
         prefix "Expected object but received " (message e) = false
         /\ forall p' type, e <> expectedObjectError p' type).
Proof.
  split.
  - intros data dataType Ht Ho.
    pose proof (isString_unique _ _ _ Ht Ho) as Htype.
    destruct (getTypeOf_object data Htype) as [dataObj ->].
    repeat split.
  - intros fuel strict data schema p errs e Hv He.
    assert (Hmsg : prefix "Expected object but received " (message e) = false).
    { assert (Hall : Forall (fun e => prefix "Expected object but received " (message e)
                                     = false) errs).
      2: { rewrite Forall_forall in Hall. exact (Hall e He). }
      apply (validate_errors_invariant
               (fun _ e => prefix "Expected object but received " (message e) = false))
        with (fuel := fuel) (strict := strict) (data := data) (schema := schema) (p := p);
        [..|exact Hv]; clear; intros; try reflexivity; assumption. }
    split; [exact Hmsg|].
    intros p' type ->. unfold expectedObjectError in Hmsg. cbn [message] in Hmsg.
    rewrite (prefix_app "Expected object but received " type) in Hmsg.
    discriminate.
Qed.

Lemma expected_object_error_unreachable_witness :
  (_getTypeOf fooData = "object" /\ isNull fooData = false /\ isArray fooData = false
   /\ negb (_getTypeOf fooData =? "object") || isNull fooData = false)
  /\ prefix "Expected object but received "
       (message (unexpectedPropertyError "" "extra" "number")) = false.
Proof.
  destruct expected_object_error_unreachable as [Hguard Hnever].
  split.
  - apply (Hguard fooData (JString PropType.OBJECT)); reflexivity.
  - apply (Hnever 2 strictDefault fooData fooSchema ""
             [unexpectedPropertyError "" "extra" "number"]).
    + reflexivity.
    + left. reflexivity.
Defined.

(** ** One activation on a normalized schema *)

Lemma validate_normalized (fuel : nat) (strict : bool) (data : JsonValue) (schema : Schema)
    (p : string) (ns : JsonObject) :
  _normalizeSchema strict schema = Normal (JObject ns) ->
  validate (S fuel) strict data schema p
  = if isUndefined data && truthy (get "optional" ns) then Normal []
    else if has_key "oneOf" ns then validateUnion (validate fuel strict) ns data p
    else if negb (isString (_getTypeOf data) (get "dataType" ns)) then
      Normal [typeMismatchError p (get "dataType" ns) (_getTypeOf data)]
    else
      valueErrors <- checkAllowedValues (get "allowedValues" ns) data p ;;
      validateObject (validate fuel strict) ns data (_getTypeOf data) p valueErrors.
Proof.
  intros Hn. rewrite validate_unfold. unfold validateBody. rewrite Hn. reflexivity.
Qed.

(** ** Union dispatch *)

Section Alternatives.
Variable recur : JsonValue -> Schema -> string -> Completion (list ValidationError).

Lemma tryAlternatives_no_match (data : JsonValue) (p : string)
    (alternatives : list JsonValue) (subErrors : list (list ValidationError)) :
  Forall2 (fun alt errs => recur data alt p = Normal errs /\ errs <> [])
    alternatives subErrors ->
  tryAlternatives recur data p alternatives = Normal (false, subErrors).
Proof.
  induction 1 as [|alt errs alts ess [Hr Hne] _ IH]; simpl.
  - reflexivity.
  - rewrite Hr. simpl. destruct errs as [|e errs]; [congruence|].
    rewrite IH. reflexivity.
Qed.

Lemma tryAlternatives_first_match (data : JsonValue) (p : string)
    (before after : list JsonValue) (alt : JsonValue)
    (subErrors : list (list ValidationError)) :
  Forall2 (fun alt errs => recur data alt p = Normal errs /\ errs <> [])
    before subErrors ->
  recur data alt p = Normal [] ->
  tryAlternatives recur data p (before ++ alt :: after) = Normal (true, subErrors).
Proof.
  intros Hbefore Halt.
  induction Hbefore as [|a errs alts ess [Hr Hne] _ IH]; simpl.
  - rewrite Halt. reflexivity.
  - rewrite Hr. simpl. destruct errs as [|e errs]; [congruence|].
    rewrite IH. reflexivity.
Qed.
End Alternatives.

Lemma existsb_nonempty {A : Type} (f : A -> bool) (l : list A) :
  existsb f l = true -> (0 <? List.length l)%nat = true.
Proof. destruct l; simpl; [discriminate | reflexivity]. Qed.

Lemma existsb_pathEquals (p : string) (errors : list ValidationError) :
  errors <> [] ->
  existsb (pathDiffers p) errors = false ->
  existsb (pathEquals p) errors = true.
Proof.
  destruct errors as [|e rest]; [congruence|]. intros _. simpl.
  unfold pathDiffers, pathEquals.
  destruct (path e =? p); simpl; [reflexivity | discriminate].
Qed.

(** C1, as the code has it: when no alternative of a union matches a
    defined value, the sub-errors whose path differs from the union's path
    are returned, all of them and in the order collected (an error reported
    by two alternatives appears twice); when at least one sub-error was
    collected and all lie at the union's path, the result is the single
    generic union error whose [received] is the classified type of the
    data. *)
Theorem union_without_match :
  forall fuel strict data schema p ns alternatives subErrors,
    _normalizeSchema strict schema = Normal (JObject ns) ->
    get "oneOf" ns = JArray alternatives ->
    data <> JUndefined ->
    Forall2 (fun alt errs => validate fuel strict data alt p = Normal errs /\ errs <> [])
      alternatives subErrors ->
    let combinedErrors := List.concat subErrors in
    (existsb (pathDiffers p) combinedErrors = true ->
     validate (S fuel) strict data schema p
     = Normal (filter (pathDiffers p) combinedErrors))
    /\ (combinedErrors <> [] ->
        existsb (pathDiffers p) combinedErrors = false ->
        validate (S fuel) strict data schema p
        = Normal [ {| path := p;
                      expected := JString ("one of "
                                           ++ string_of_nat (List.length alternatives)
                                           ++ " possible types");
                      received := _getTypeOf data;
                      message := "Value does not match any of the allowed schemas" |} ]).
Proof.
  intros fuel strict data schema p ns alternatives subErrors Hn Hone Hdata Hsub combined.
  assert (Hkey : has_key "oneOf" ns = true)
    by (apply get_present; rewrite Hone; discriminate).
  assert (Hstep : validate (S fuel) strict data schema p
                  = if (0 <? List.length combined)%nat then
                      if existsb (pathDiffers p) combined then
                        Normal (filter (pathDiffers p) combined)
                      else if existsb (pathEquals p) combined then
                        Normal [unionError p (List.length alternatives) (_getTypeOf data)]
                      else Normal []
                    else Normal []).
  { rewrite (validate_normalized _ _ _ _ _ _ Hn).
    rewrite (isUndefined_false _ Hdata). simpl. rewrite Hkey.
    unfold validateUnion. rewrite Hone, (isUndefined_false _ Hdata).
    rewrite (tryAlternatives_no_match _ _ _ _ _ Hsub). reflexivity. }
  split.
  - intros Hprop. rewrite Hstep, (existsb_nonempty _ _ Hprop), Hprop. reflexivity.
  - intros Hne Hnone. rewrite Hstep, Hnone, (existsb_pathEquals _ _ Hne Hnone).
    destruct combined; [congruence | reflexivity].
Qed.

(** C8: a union with no alternatives accepts every defined value. *)
Theorem empty_union_accepts_defined_values :
  forall fuel strict data fields p,
    data <> JUndefined ->
    get "oneOf" fields = JArray [] ->
    validate (S fuel) strict data (JObject fields) p = Normal [].
Proof.
  intros fuel strict data fields p Hdata Hone.
  assert (Hn : _normalizeSchema strict (JObject fields)
               = Normal (JObject (setField "oneOf" (JArray []) fields)))
    by (rewrite (normalize_union _ _ _ Hone); reflexivity).
  rewrite (validate_normalized _ _ _ _ _ _ Hn).
  rewrite (isUndefined_false _ Hdata). simpl.
  rewrite has_key_setField_same.
  unfold validateUnion. rewrite get_setField_same, (isUndefined_false _ Hdata).
  reflexivity.
Qed.

Lemma empty_union_accepts_defined_values_witness :
  validate 1 strictDefault (JNumber 3) (JObject [("oneOf", JArray [])]) "" = Normal [].
Proof.
  apply empty_union_accepts_defined_values; [discriminate | reflexivity].
Defined.

Lemma union_without_match_witness :
  validate 3 strictDefault dupData dupSchema ""
  = Normal (filter (pathDiffers "") (List.concat [[dupError]; [dupError]]))
  /\ validate 2 strictDefault (JBoolean true) stringOrNumber ""
     = Normal [ {| path := "";
                   expected := JString ("one of " ++ string_of_nat 2 ++ " possible types");
                   received := _getTypeOf (JBoolean true);
                   message := "Value does not match any of the allowed schemas" |} ].
Proof.
  split.
  - apply (union_without_match 2 strictDefault dupData dupSchema ""
             [("oneOf", JArray [dupAlternative; dupAlternative])]
             [dupAlternative; dupAlternative] [[dupError]; [dupError]]).
    + reflexivity.
    + reflexivity.
    + discriminate.
    + repeat constructor; discriminate.
    + reflexivity.
  - apply (union_without_match 1 strictDefault (JBoolean true) stringOrNumber ""
             [("oneOf", JArray [JObject [("dataType", JString PropType.STRING)];
                                JObject [("dataType", JString PropType.NUMBER)]])]
             [JObject [("dataType", JString PropType.STRING)];
              JObject [("dataType", JString PropType.NUMBER)]]
             [[typeMismatchError "" (JString "string") "boolean"];
              [typeMismatchError "" (JString "number") "boolean"]]).
    + reflexivity.
    + reflexivity.
    + discriminate.
    + repeat constructor; discriminate.
    + discriminate.
    + reflexivity.
Defined.

(** The claim as the specification words it fails: two alternatives that
    report the same property error yield that error twice, where a
    deduplicated list would hold it once; and a union without alternatives
    collects no sub-error and returns no error rather than the generic
    one. *)
Lemma union_errors_not_deduplicated :
  Forall2 (fun alt errs =>
             validate 2 strictDefault dupData alt "" = Normal errs /\ errs <> [])
    [dupAlternative; dupAlternative] [[dupError]; [dupError]]
  /\ existsb (pathDiffers "") (List.concat [[dupError]; [dupError]]) = true
  /\ validate 3 strictDefault dupData dupSchema "" = Normal [dupError; dupError]
  /\ validate 3 strictDefault dupData dupSchema ""
     <> Normal (dedupErrors []
                  (filter (pathDiffers "") (List.concat [[dupError]; [dupError]])))
  /\ validate 1 strictDefault (JNumber 1) emptyUnion "" = Normal []
  /\ validate 1 strictDefault (JNumber 1) emptyUnion ""
     <> Normal [unionError "" 0 (_getTypeOf (JNumber 1))].
Proof.
  repeat split; try reflexivity; try discriminate.
  - repeat constructor; discriminate.
Qed.

(** ** The type check *)




(** ** A call that throws *)

(** C5 (every call of [validate] returns a list of errors and none throws)
    fails on the empty array shorthand: [schema[0]] is [undefined] and is
    kept as the [items] schema, so validating a non-empty array throws a
    [TypeError] at the first element.  The same shorthand as a property of
    an implicit object goes through the other branch, becomes a union
    without alternatives, and returns.  That every call terminates is
    [validate_total] below. *)
Theorem validate_throws_on_empty_array_shorthand :
  _normalizeSchema strictDefault emptyArraySchema = Normal (arraySchema JUndefined)
  /\ (forall fuel,
         validate (2 + fuel) strictDefault (JArray [JNumber 1]) emptyArraySchema ""
         = TypeError)
  /\ (forall fuel,
         validate (3 + fuel) strictDefault
           (JObject [("tags", JArray [JNumber 1])]) emptyTagsSchema ""
         = Normal []).
Proof. repeat split. Qed.

(** ** Termination *)

(** Induction that also hands out the hypothesis for the values two levels
    down, which the normalizer reaches through [oneOf], [properties] and
    array-valued properties. *)
Lemma JsonValue_deep_ind (P : JsonValue -> Prop) :
  P JUndefined -> P JNull ->
  (forall b, P (JBoolean b)) -> (forall n, P (JNumber n)) -> (forall s, P (JString s)) ->
  (forall elems, Forall P elems -> P (JArray elems)) ->
  (forall fields,
      Forall (fun kv => P (snd kv)) fields ->
      Forall (fun kv => match snd kv with
                        | JArray elems => Forall P elems
                        | JObject props => Forall (fun kv => P (snd kv)) props
                        | _ => True
                        end) fields ->
      P (JObject fields)) ->
  forall v, P v.
Proof.
  intros Hu Hnull Hb Hn Hs Ha Ho v.
  enough (H : P v /\ match v with
                     | JArray elems => Forall P elems
                     | JObject props => Forall (fun kv => P (snd kv)) props
                     | _ => True
                     end) by apply H.
  induction v as [| | | | |elems IH|fields IH] using JsonValue_ind; try (split; auto; fail).
  - assert (Hall : Forall P elems) by (eapply Forall_impl; [|exact IH]; now intros x [H _]).
    split; auto.
  - assert (Hall : Forall (fun kv => P (snd kv)) fields)
      by (eapply Forall_impl; [|exact IH]; now intros x [H _]).
    split; [|exact Hall]. apply Ho; [exact Hall|].
    eapply Forall_impl; [|exact IH]. now intros x [_ H].
Qed.

Lemma withField_setField_same {R : Type} (key : string) (found : JsonValue -> R) (missing : R)
    (v : JsonValue) (fields : JsonObject) :
  withField key found missing (setField key v fields) = found v.
Proof.
  induction fields as [|[k w] rest IH]; simpl.
  - now rewrite String.eqb_refl.
  - destruct (k =? key) eqn:E; simpl; rewrite E; auto.
Qed.

Lemma withField_setField_other {R : Type} (key key' : string) (found : JsonValue -> R)
    (missing : R) (v : JsonValue) (fields : JsonObject) :
  (key' =? key) = false ->
  withField key found missing (setField key' v fields) = withField key found missing fields.
Proof.
  intros Hne. induction fields as [|[k w] rest IH]; simpl.
  - now rewrite Hne.
  - destruct (k =? key') eqn:E; simpl.
    + apply String.eqb_eq in E. subst k. now rewrite Hne.
    + now rewrite IH.
Qed.

Lemma withField_get {R : Type} (key : string) (found : JsonValue -> R) (fields : JsonObject) :
  withField key found (found JUndefined) fields = found (get key fields).
Proof.
  induction fields as [|[k v] rest IH]; simpl; [reflexivity|].
  now destruct (k =? key).
Qed.

Lemma list_max_In (l : list nat) (n : nat) : In n l -> n <= list_max l.
Proof.
  intros Hin. pose proof (proj1 (list_max_le l (list_max l)) (Nat.le_refl _)) as H.
  rewrite Forall_forall in H. auto.
Qed.

Lemma list_max_map_Forall2 {A B : Type} (f : A -> nat) (g : B -> nat)
    (l : list A) (l' : list B) :
  Forall2 (fun x y => g y <= f x) l l' ->
  list_max (map g l') <= list_max (map f l).
Proof.
  induction 1 as [|x y xs ys Hxy _ IH]; simpl; [lia|].
  apply Nat.max_le_compat; assumption.
Qed.

Lemma list_max_combine_snd {A : Type} (f : JsonValue -> nat) (keys : list A)
    (l : list JsonValue) :
  list_max (map (fun kv => f (snd kv)) (combine keys l)) <= list_max (map f l).
Proof.
  revert keys. induction l as [|x rest IH]; intros [|k keys]; simpl; try lia.
  specialize (IH keys). lia.
Qed.

Lemma rank_arraySchema (items : JsonValue) : rank (arraySchema items) = 1 + rank items.
Proof. simpl. now rewrite Nat.max_0_r. Qed.

Lemma rank_unionOf (alternatives : list JsonValue) :
  rank (unionOf alternatives) = 1 + list_max (map rank alternatives).
Proof. simpl. now rewrite Nat.max_0_r. Qed.

Lemma rank_explicit (fields : JsonObject) :
  negb (has_key "dataType" fields) && negb (has_key "oneOf" fields) = false ->
  rank (JObject fields)
  = 1 + Nat.max (rank (get "items" fields))
          (Nat.max (rankOfAlternatives rank (get "oneOf" fields))
             (rankOfProperties rank (get "properties" fields))).
Proof.
  intros H. simpl. rewrite H.
  now rewrite <- !withField_get.
Qed.

Lemma rank_implicit (fields : JsonObject) :
  negb (has_key "dataType" fields) && negb (has_key "oneOf" fields) = true ->
  rank (JObject fields) = 1 + list_max (map (fun kv => rank (snd kv)) fields).
Proof. intros H. simpl. now rewrite H. Qed.

Section RankOfNormalized.
Variable strict : bool.

Lemma rank_normalized_list (elems normalized : list JsonValue) :
  Forall (fun e => forall n, _normalizeSchema strict e = Normal n -> rank n <= rank e) elems ->
  mapM (_normalizeSchema strict) elems = Normal normalized ->
  list_max (map rank normalized) <= list_max (map rank elems).
Proof.
  intros Hall Hmap. apply mapM_Forall2 in Hmap.
  apply list_max_map_Forall2. revert Hall.
  induction Hmap as [|x y xs ys Hxy _ IH]; intros Hall; constructor;
    inversion Hall; subst; auto.
Qed.

Lemma rank_normalized_properties (props normalized : JsonObject) :
  Forall (fun kv => forall n, _normalizeSchema strict (snd kv) = Normal n ->
                              rank n <= rank (snd kv)) props ->
  mapM (normalizeProperty (_normalizeSchema strict)) props = Normal normalized ->
  list_max (map (fun kv => rank (snd kv)) normalized)
  <= list_max (map (fun kv => rank (snd kv)) props).
Proof.
  intros Hall Hmap. apply mapM_Forall2 in Hmap.
  apply list_max_map_Forall2. revert Hall.
  induction Hmap as [|[key value] [k n] xs ys Hxy _ IH]; intros Hall; constructor;
    inversion Hall as [|? ? Hvalue Hrest]; subst; auto.
  simpl in *. apply bind_Normal in Hxy as [n' [Hn' Hxy]].
  injection Hxy as _ <-. auto.
Qed.

Lemma rank_normalize :
  forall schema n, _normalizeSchema strict schema = Normal n -> rank n <= rank schema.
Proof.
  induction schema as [| | | | |elems IH|fields IH IH2] using JsonValue_deep_ind;
    intros result Hn;
    try (simpl in Hn; try discriminate; injection Hn as <-; simpl; lia).
  - (* array shorthand *)
    simpl in Hn. destruct (1 <? List.length elems)%nat.
    + apply bind_Normal in Hn as [alternatives [Hmap Hn]]. injection Hn as <-.
      rewrite rank_arraySchema, rank_unionOf.
      pose proof (rank_normalized_list _ _ IH Hmap). simpl. lia.
    + apply bind_Normal in Hn as [items [Hitems Hn]]. injection Hn as <-.
      rewrite rank_arraySchema.
      destruct elems as [|firstItem rest].
      * injection Hitems as <-. simpl. lia.
      * inversion IH as [|? ? Hfirst _]; subst.
        specialize (Hfirst _ Hitems). simpl. lia.
  - destruct (has_key "oneOf" fields) eqn:Ho.
    + (* union *)
      assert (Hexplicit : negb (has_key "dataType" fields) && negb (has_key "oneOf" fields)
                          = false) by (rewrite Ho; apply andb_false_r).
      assert (Hstep := Hn). simpl in Hstep. rewrite Ho, andb_false_r in Hstep.
      rewrite withField_present in Hstep by exact Ho.
      destruct (get "oneOf" fields) as [| | | | |elems|] eqn:Hget; try discriminate.
      apply bind_Normal in Hstep as [alternatives [Hmap Hstep]].
      injection Hstep as <-.
      pose proof (Forall_get
                    (fun v => match v with
                              | JArray elems =>
                                  Forall (fun e => forall n, _normalizeSchema strict e = Normal n
                                                             -> rank n <= rank e) elems
                              | JObject props =>
                                  Forall (fun kv => forall n,
                                              _normalizeSchema strict (snd kv) = Normal n
                                              -> rank n <= rank (snd kv)) props
                              | _ => True
                              end) "oneOf" fields IH2 Ho) as Helems.
      rewrite Hget in Helems.
      pose proof (rank_normalized_list _ _ Helems Hmap) as Hle.
      rewrite (rank_explicit fields Hexplicit), rank_explicit.
      * rewrite get_setField_same, !get_setField_other by reflexivity.
        rewrite Hget. simpl. lia.
      * rewrite has_key_setField_same. apply andb_false_r.
    + destruct (has_key "dataType" fields) eqn:Hd.
      * assert (Hexplicit : negb (has_key "dataType" fields)
                            && negb (has_key "oneOf" fields) = false)
          by (now rewrite Hd).
        destruct (has_key "properties" fields) eqn:Hp.
        -- (* explicit properties *)
           rewrite (normalize_explicit_properties _ _ Hd Ho Hp) in Hn.
           apply bind_Normal in Hn as [np [Hnp Hn]]. injection Hn as <-.
           pose proof (Forall_get
                         (fun v => forall n, _normalizeSchema strict v = Normal n
                                             -> rank n <= rank v)
                         "properties" fields IH Hp) as Hprops.
           pose proof (Forall_get
                    (fun v => match v with
                              | JArray elems =>
                                  Forall (fun e => forall n, _normalizeSchema strict e = Normal n
                                                             -> rank n <= rank e) elems
                              | JObject props =>
                                  Forall (fun kv => forall n,
                                              _normalizeSchema strict (snd kv) = Normal n
                                              -> rank n <= rank (snd kv)) props
                              | _ => True
                              end) "properties" fields IH2 Hp) as Hchildren.
           assert (Hle : list_max (map (fun kv => rank (snd kv)) np)
                         <= rankOfProperties rank (get "properties" fields)).
           { destruct (get "properties" fields) as [| | | |s|elems|props];
               simpl in Hnp; try discriminate; try (injection Hnp as <-; simpl; lia).
             - injection Hnp as <-. simpl.
               apply list_max_le. apply Forall_forall. intros r Hr.
               apply in_map_iff in Hr as [[k v] [<- Hin]].
               apply in_combine_r in Hin. apply in_map_iff in Hin as [c [<- _]].
               simpl. lia.
             - apply bind_Normal in Hnp as [normalized [Hmap Hnp]]. injection Hnp as <-.
               etransitivity; [apply list_max_combine_snd|].
               simpl. eapply rank_normalized_list; eassumption.
             - simpl. eapply rank_normalized_properties; eassumption. }
           rewrite (rank_explicit fields Hexplicit), rank_explicit.
           ++ rewrite get_setField_same, !get_setField_other by reflexivity.
              simpl rankOfProperties at 1. lia.
           ++ rewrite !has_key_setField_other by reflexivity. exact Hexplicit.
        -- rewrite (normalize_unchanged _ _ Hd Ho Hp) in Hn. injection Hn as <-. lia.
      * (* implicit object schema *)
        assert (Himplicit : negb (has_key "dataType" fields)
                            && negb (has_key "oneOf" fields) = true)
          by (now rewrite Hd, Ho).
        rewrite (normalize_implicit _ _ Hd Ho) in Hn.
        apply bind_Normal in Hn as [np [Hnp Hn]]. injection Hn as <-.
        rewrite (rank_implicit fields Himplicit), rank_explicit by reflexivity.
        simpl get. simpl rankOfProperties. simpl rankOfAlternatives. simpl (rank JUndefined).
        apply mapM_Forall2 in Hnp.
        enough (list_max (map (fun kv => rank (snd kv)) np)
                <= list_max (map (fun kv => rank (snd kv)) fields)) by lia.
        apply list_max_map_Forall2. clear Ho Hd Himplicit. revert IH IH2.
        induction Hnp as [|[key value] [k v] xs ys Hxy _ IHnp]; intros IH IH2;
          [constructor|].
        inversion IH as [|? ? Hvalue Hrest]; subst.
        inversion IH2 as [|? ? Hdeep Hrest2]; subst.
        constructor; [|exact (IHnp Hrest Hrest2)].
        simpl in *.
        assert (Hother : (normalized <- _normalizeSchema strict value ;;
                          Normal (key, normalized)) = Normal (k, v) ->
                         rank v <= rank value).
        { intros H. apply bind_Normal in H as [n' [Hn' H]]. injection H as _ <-. auto. }
        destruct value as [| | | | |elems|]; try (now apply Hother).
        apply bind_Normal in Hxy as [items [Hitems Hxy]]. injection Hxy as _ <-.
        rewrite rank_arraySchema.
        destruct elems as [|only [|second rest]].
        -- apply bind_Normal in Hitems as [alts [Hmap Hitems]]. injection Hitems as <-.
           rewrite rank_unionOf. injection Hmap as <-. simpl. lia.
        -- inversion Hdeep as [|? ? Honly _]; subst.
           specialize (Honly _ Hitems). simpl. lia.
        -- apply bind_Normal in Hitems as [alts [Hmap Hitems]]. injection Hitems as <-.
           rewrite rank_unionOf.
           pose proof (rank_normalized_list _ _ Hdeep Hmap). simpl in *. lia.
Qed.
End RankOfNormalized.

(** The schemas of the recursive calls lie strictly below the schema
    normalized. *)
Lemma rank_alternative (ns : JsonObject) (alternatives : list JsonValue) (alt : JsonValue) :
  get "oneOf" ns = JArray alternatives ->
  In alt alternatives ->
  rank alt < rank (JObject ns).
Proof.
  intros Hone Hin.
  assert (Hkey : has_key "oneOf" ns = true)
    by (apply get_present; rewrite Hone; discriminate).
  rewrite rank_explicit by (rewrite Hkey; apply andb_false_r).
  rewrite Hone. simpl.
  pose proof (list_max_In (map rank alternatives) (rank alt) (in_map rank _ _ Hin)). lia.
Qed.

Lemma rank_property (ns props : JsonObject) (key : string) (propSchema : JsonValue) :
  has_key "oneOf" ns = false ->
  isString PropType.OBJECT (get "dataType" ns) = true ->
  entries (get "properties" ns) = Normal props ->
  In (key, propSchema) props ->
  rank propSchema < rank (JObject ns).
Proof.
  intros Ho Hd Hentries Hin.
  assert (Hkey : has_key "dataType" ns = true).
  { apply get_present. apply isString_eq in Hd. rewrite Hd. discriminate. }
  rewrite rank_explicit by (now rewrite Hkey).
  enough (rank propSchema <= rankOfProperties rank (get "properties" ns)) by lia.
  destruct (get "properties" ns) as [| | | |s|elems|fields]; simpl in Hentries;
    try discriminate; injection Hentries as <-; simpl.
  - contradiction.
  - contradiction.
  - apply in_combine_r in Hin. apply in_map_iff in Hin as [c [<- _]]. simpl. lia.
  - apply in_combine_r in Hin. apply list_max_In. now apply in_map.
  - apply list_max_In. apply in_map_iff. exists (key, propSchema). split; [reflexivity|exact Hin].
Qed.

Lemma rank_items (ns : JsonObject) :
  has_key "oneOf" ns = false ->
  isString PropType.ARRAY (get "dataType" ns) = true ->
  rank (get "items" ns) < rank (JObject ns).
Proof.
  intros Ho Hd.
  assert (Hkey : has_key "dataType" ns = true).
  { apply get_present. apply isString_eq in Hd. rewrite Hd. discriminate. }
  rewrite rank_explicit by (now rewrite Hkey). lia.
Qed.

(** Calls that do not run out of budget *)

Lemma bind_finishes {A B : Type} (c : Completion A) (k : A -> Completion B) :
  c <> OutOfFuel ->
  (forall a, c = Normal a -> k a <> OutOfFuel) ->
  bind c k <> OutOfFuel.
Proof.
  destruct c as [a| |]; simpl; intros Hc Hk; [now apply Hk | discriminate | congruence].
Qed.

Lemma mapM_finishes {A B : Type} (f : A -> Completion B) (l : list A) :
  Forall (fun x => f x <> OutOfFuel) l -> mapM f l <> OutOfFuel.
Proof.
  induction 1 as [|x rest Hx _ IH]; simpl; [discriminate|].
  apply bind_finishes; [exact Hx|]. intros y _.
  apply bind_finishes; [exact IH|]. discriminate.
Qed.

Lemma normalize_finishes (strict : bool) (schema : Schema) :
  _normalizeSchema strict schema <> OutOfFuel.
Proof.
  induction schema as [| | | | |elems IH|fields IH IH2] using JsonValue_deep_ind;
    try (simpl; discriminate).
  - simpl. destruct (1 <? List.length elems)%nat.
    + apply bind_finishes; [now apply mapM_finishes | discriminate].
    + apply bind_finishes; [|discriminate].
      destruct elems as [|firstItem rest]; [discriminate|].
      now inversion IH.
  - simpl.
    destruct (negb (has_key "dataType" fields) && negb (has_key "oneOf" fields)).
    { apply bind_finishes; [|discriminate]. apply mapM_finishes.
      apply Forall_forall. intros [key value] Hin.
      rewrite Forall_forall in IH, IH2.
      specialize (IH _ Hin). specialize (IH2 _ Hin). simpl in *.
      destruct value as [| | | | |elems|]; try (apply bind_finishes; [exact IH|discriminate]).
      apply bind_finishes; [|discriminate].
      destruct elems as [|only [|second rest]].
      - discriminate.
      - now inversion IH2.
      - apply bind_finishes; [now apply mapM_finishes | discriminate]. }
    destruct (has_key "oneOf" fields) eqn:Ho.
    { rewrite withField_present by exact Ho.
      pose proof (Forall_get
                    (fun v => match v with
                              | JArray elems =>
                                  Forall (fun e => _normalizeSchema strict e <> OutOfFuel) elems
                              | JObject props =>
                                  Forall (fun kv => _normalizeSchema strict (snd kv)
                                                    <> OutOfFuel) props
                              | _ => True
                              end) "oneOf" fields IH2 Ho) as Hdeep.
      destruct (get "oneOf" fields); try discriminate.
      apply bind_finishes; [now apply mapM_finishes | discriminate]. }
    destruct (has_key "properties" fields) eqn:Hp; [|discriminate].
    rewrite withField_present by exact Hp.
    pose proof (Forall_get
                  (fun v => match v with
                            | JArray elems =>
                                Forall (fun e => _normalizeSchema strict e <> OutOfFuel) elems
                            | JObject props =>
                                Forall (fun kv => _normalizeSchema strict (snd kv)
                                                  <> OutOfFuel) props
                            | _ => True
                            end) "properties" fields IH2 Hp) as Hdeep.
    apply bind_finishes; [|discriminate].
    destruct (get "properties" fields) as [| | | |s|elems|props]; simpl; try discriminate.
    + apply bind_finishes; [now apply mapM_finishes | discriminate].
    + apply mapM_finishes. eapply Forall_impl; [|exact Hdeep].
      intros [k v] Hv. simpl in *. apply bind_finishes; [exact Hv | discriminate].
Qed.

Lemma checkAllowedValues_finishes (allowedValues data : JsonValue) (p : string) :
  checkAllowedValues allowedValues data p <> OutOfFuel.
Proof.
  unfold checkAllowedValues.
  destruct (truthy allowedValues); [|discriminate].
  destruct allowedValues; try discriminate.
  - destruct (stringIncludes s (toString data)); discriminate.
  - destruct (includes elems data); discriminate.
Qed.

Section ActivationFinishes.
Variable bound : nat.
Variable recur : JsonValue -> Schema -> string -> Completion (list ValidationError).
Hypothesis recur_answers : answersBelow bound recur.

Lemma tryAlternatives_finishes (data : JsonValue) (p : string)
    (alternatives : list JsonValue) :
  Forall (fun alt => rank alt < bound) alternatives ->
  tryAlternatives recur data p alternatives <> OutOfFuel.
Proof.
  induction 1 as [|alt rest Halt _ IH]; simpl; [discriminate|].
  apply bind_finishes; [now apply recur_answers|].
  intros [|e subErrors] _; [discriminate|].
  apply bind_finishes; [exact IH | discriminate].
Qed.

Lemma validateUnion_finishes (ns : JsonObject) (data : JsonValue) (p : string) :
  rank (JObject ns) <= bound ->
  validateUnion recur ns data p <> OutOfFuel.
Proof.
  intros Hrank. unfold validateUnion.
  destruct (get "oneOf" ns) as [| | | | |alternatives|] eqn:Hone; try discriminate.
  destruct (isUndefined data); [discriminate|].
  apply bind_finishes.
  - apply tryAlternatives_finishes. apply Forall_forall. intros alt Hin.
    pose proof (rank_alternative _ _ _ Hone Hin). lia.
  - intros [found allErrors] _. destruct found.
    + apply checkAllowedValues_finishes.
    + destruct (0 <? List.length (List.concat allErrors))%nat; [|discriminate].
      destruct (existsb (pathDiffers p) (List.concat allErrors)); [discriminate|].
      destruct (existsb (pathEquals p) (List.concat allErrors)); discriminate.
Qed.

Lemma unexpectedProperties_finishes (properties : JsonValue) (dataObj : JsonObject)
    (p : string) :
  unexpectedProperties properties dataObj p <> OutOfFuel.
Proof.
  unfold unexpectedProperties. apply bind_finishes; [|discriminate].
  apply mapM_finishes. apply Forall_forall. intros key _.
  apply bind_finishes; [|discriminate].
  destruct properties; discriminate.
Qed.

Lemma validateArray_finishes (ns : JsonObject) (data : JsonValue) (type p : string)
    (errors : list ValidationError) :
  has_key "oneOf" ns = false ->
  rank (JObject ns) <= bound ->
  validateArray recur ns data type p errors <> OutOfFuel.
Proof.
  intros Ho Hrank. unfold validateArray.
  destruct (isString PropType.ARRAY (get "dataType" ns)) eqn:Hd; simpl; [|discriminate].
  destruct (has_key "items" ns); [|discriminate].
  destruct (negb (isArray data)); [discriminate|].
  apply bind_finishes; [|discriminate].
  unfold validateItems. apply bind_finishes; [|discriminate].
  apply mapM_finishes. apply Forall_forall. intros [i item] _.
  apply recur_answers. pose proof (rank_items _ Ho Hd). lia.
Qed.

Lemma validateObject_finishes (ns : JsonObject) (data : JsonValue) (type p : string)
    (errors : list ValidationError) :
  has_key "oneOf" ns = false ->
  rank (JObject ns) <= bound ->
  validateObject recur ns data type p errors <> OutOfFuel.
Proof.
  intros Ho Hrank. unfold validateObject.
  destruct (isString PropType.OBJECT (get "dataType" ns)) eqn:Hd; simpl;
    [|now apply validateArray_finishes].
  destruct (has_key "properties" ns); [|now apply validateArray_finishes].
  destruct (negb (type =? "object") || isNull data); [discriminate|].
  apply bind_finishes; [destruct (get "properties" ns); discriminate|].
  intros props Hentries.
  apply bind_finishes.
  - unfold validateProperties. apply bind_finishes; [|discriminate].
    apply mapM_finishes. apply Forall_forall. intros [key propSchema] Hin.
    apply recur_answers. pose proof (rank_property _ _ _ _ Ho Hd Hentries Hin). lia.
  - intros propErrors _. apply bind_finishes.
    + destruct (isNotTrue (get "additionalProperties" ns)); [|discriminate].
      apply unexpectedProperties_finishes.
    + intros unexpected _. now apply validateArray_finishes.
Qed.

Lemma validateBody_finishes (strict : bool) (data : JsonValue) (schema : Schema)
    (p : string) :
  rank schema <= bound ->
  validateBody recur strict data schema p <> OutOfFuel.
Proof.
  intros Hrank. unfold validateBody.
  apply bind_finishes; [apply normalize_finishes|].
  intros normalized Hn. apply rank_normalize in Hn.
  destruct normalized as [| | | | | |ns]; try discriminate.
  destruct (isUndefined data && truthy (get "optional" ns)); [discriminate|].
  destruct (has_key "oneOf" ns) eqn:Ho.
  - apply validateUnion_finishes. lia.
  - destruct (negb (isString (_getTypeOf data) (get "dataType" ns))); [discriminate|].
    apply bind_finishes; [apply checkAllowedValues_finishes|].
    intros valueErrors _. apply validateObject_finishes; [exact Ho | lia].
Qed.
End ActivationFinishes.

(** [validate] terminates: a budget above the rank of the schema is never
    exhausted, so the call returns a list of errors or throws. *)
Theorem validate_terminates :
  forall fuel strict data schema p,
    rank schema < fuel ->
    validate fuel strict data schema p <> OutOfFuel.
Proof.
  induction fuel as [|fuel IH]; intros strict data schema p Hrank; [lia|].
  rewrite validate_unfold.
  apply validateBody_finishes with (bound := fuel); [|lia].
  intros data' schema' p' Hbelow. now apply IH.
Qed.

(** ** A larger budget does not change an answer *)

Lemma bind_extends {A B : Type} (c : Completion A) (k k' : A -> Completion B) :
  bind c k <> OutOfFuel ->
  (forall a, c = Normal a -> k a <> OutOfFuel -> k' a = k a) ->
  bind c k' = bind c k.
Proof.
  destruct c as [a| |]; simpl; intros Hc Hk; auto.
Qed.

Lemma bind_finished_left {A B : Type} (c : Completion A) (k : A -> Completion B) :
  bind c k <> OutOfFuel -> c <> OutOfFuel.
Proof. destruct c; simpl; congruence. Qed.

Lemma mapM_extends {A B : Type} (f f' : A -> Completion B) (l : list A) :
  (forall x, f x <> OutOfFuel -> f' x = f x) ->
  mapM f l <> OutOfFuel ->
  mapM f' l = mapM f l.
Proof.
  intros Hf. induction l as [|x rest IH]; simpl; intros H; [reflexivity|].
  rewrite (Hf x) by (eapply bind_finished_left; exact H).
  apply bind_extends; [exact H|]. intros y Hy Hrest.
  rewrite IH; [reflexivity|]. eapply bind_finished_left; exact Hrest.
Qed.

Section ActivationExtends.
Variables recur recur' : JsonValue -> Schema -> string -> Completion (list ValidationError).
Hypothesis recur_extends : extends recur recur'.

Lemma tryAlternatives_extends (data : JsonValue) (p : string)
    (alternatives : list JsonValue) :
  tryAlternatives recur data p alternatives <> OutOfFuel ->
  tryAlternatives recur' data p alternatives = tryAlternatives recur data p alternatives.
Proof.
  induction alternatives as [|alt rest IH]; simpl; intros H; [reflexivity|].
  rewrite recur_extends by (eapply bind_finished_left; exact H).
  apply bind_extends; [exact H|]. intros [|e subErrors] _ Hrest; [reflexivity|].
  rewrite IH; [reflexivity|]. eapply bind_finished_left; exact Hrest.
Qed.

Lemma validateUnion_extends (ns : JsonObject) (data : JsonValue) (p : string) :
  validateUnion recur ns data p <> OutOfFuel ->
  validateUnion recur' ns data p = validateUnion recur ns data p.
Proof.
  unfold validateUnion.
  destruct (get "oneOf" ns); try reflexivity.
  destruct (isUndefined data); [reflexivity|]. intros H.
  rewrite tryAlternatives_extends; [reflexivity|].
  eapply bind_finished_left; exact H.
Qed.

Lemma validateProperties_extends (props dataObj : JsonObject) (p : string) :
  validateProperties recur props dataObj p <> OutOfFuel ->
  validateProperties recur' props dataObj p = validateProperties recur props dataObj p.
Proof.
  unfold validateProperties. intros H.
  rewrite (mapM_extends
             (fun '(key, propSchema) => recur (get key dataObj) propSchema (propPath p key))
             (fun '(key, propSchema) => recur' (get key dataObj) propSchema (propPath p key))).
  - reflexivity.
  - intros [key propSchema]. apply recur_extends.
  - eapply bind_finished_left; exact H.
Qed.

Lemma validateItems_extends (items : Schema) (elems : list JsonValue) (p : string) :
  validateItems recur items elems p <> OutOfFuel ->
  validateItems recur' items elems p = validateItems recur items elems p.
Proof.
  unfold validateItems. intros H.
  rewrite (mapM_extends
             (fun '(i, item) => recur item items (itemPath p i))
             (fun '(i, item) => recur' item items (itemPath p i))).
  - reflexivity.
  - intros [i item]. apply recur_extends.
  - eapply bind_finished_left; exact H.
Qed.

Lemma validateArray_extends_budget (ns : JsonObject) (data : JsonValue) (type p : string)
    (errors : list ValidationError) :
  validateArray recur ns data type p errors <> OutOfFuel ->
  validateArray recur' ns data type p errors = validateArray recur ns data type p errors.
Proof.
  unfold validateArray.
  destruct (isString PropType.ARRAY (get "dataType" ns) && has_key "items" ns);
    [|reflexivity].
  destruct (negb (isArray data)); [reflexivity|]. intros H.
  rewrite validateItems_extends; [reflexivity|].
  eapply bind_finished_left; exact H.
Qed.

Lemma validateObject_extends_budget (ns : JsonObject) (data : JsonValue) (type p : string)
    (errors : list ValidationError) :
  validateObject recur ns data type p errors <> OutOfFuel ->
  validateObject recur' ns data type p errors = validateObject recur ns data type p errors.
Proof.
  unfold validateObject.
  destruct (isString PropType.OBJECT (get "dataType" ns) && has_key "properties" ns);
    [|apply validateArray_extends_budget].
  destruct (negb (type =? "object") || isNull data); [reflexivity|]. intros H.
  apply bind_extends; [exact H|]. intros props _ H1.
  rewrite validateProperties_extends by (eapply bind_finished_left; exact H1).
  apply bind_extends; [exact H1|]. intros propErrors _ H2.
  apply bind_extends; [exact H2|]. intros unexpected _ H3.
  now apply validateArray_extends_budget.
Qed.

Lemma validateBody_extends (strict : bool) (data : JsonValue) (schema : Schema) (p : string) :
  validateBody recur strict data schema p <> OutOfFuel ->
  validateBody recur' strict data schema p = validateBody recur strict data schema p.
Proof.
  unfold validateBody. intros H.
  apply bind_extends; [exact H|]. intros normalized _.
  destruct normalized as [| | | | | |ns]; try reflexivity.
  destruct (isUndefined data && truthy (get "optional" ns)); [reflexivity|].
  destruct (has_key "oneOf" ns); [apply validateUnion_extends|].
  destruct (negb (isString (_getTypeOf data) (get "dataType" ns))); [reflexivity|].
  intros H1. apply bind_extends; [exact H1|]. intros valueErrors _.
  apply validateObject_extends_budget.
Qed.
End ActivationExtends.

Lemma validate_budget_step (fuel : nat) (strict : bool) :
  extends (validate fuel strict) (validate (S fuel) strict).
Proof.
  induction fuel as [|fuel IH]; intros data schema p H.
  - now elim H.
  - rewrite (validate_unfold (S fuel)), (validate_unfold fuel).
    apply validateBody_extends; [exact IH|].
    rewrite <- validate_unfold. exact H.
Qed.

(** Once a budget suffices, every larger budget gives the same answer. *)
Lemma validate_budget_monotone (fuel fuel' : nat) (strict : bool) (data : JsonValue)
    (schema : Schema) (p : string) :
  fuel <= fuel' ->
  validate fuel strict data schema p <> OutOfFuel ->
  validate fuel' strict data schema p = validate fuel strict data schema p.
Proof.
  induction 1 as [|fuel' _ IH]; intros H; [reflexivity|].
  rewrite validate_budget_step; [now apply IH|].
  rewrite IH by exact H. exact H.
Qed.

(** The answer of [validate], independent of the budget: each call returns
    a list of errors or throws, and does the same under every budget above
    the rank of its schema. *)
Theorem validate_total :
  forall strict data schema p,
    (exists errs, forall fuel, rank schema < fuel ->
                               validate fuel strict data schema p = Normal errs)
    \/ (forall fuel, rank schema < fuel ->
                     validate fuel strict data schema p = TypeError).
Proof.
  intros strict data schema p.
  pose proof (validate_terminates (S (rank schema)) strict data schema p
                (Nat.lt_succ_diag_r _)) as Hfin.
  assert (Hsame : forall fuel, rank schema < fuel ->
                    validate fuel strict data schema p
                    = validate (S (rank schema)) strict data schema p)
    by (intros fuel Hlt; apply validate_budget_monotone; [lia | exact Hfin]).
  destruct (validate (S (rank schema)) strict data schema p) as [errs| |] eqn:Hv.
  - left. exists errs. exact Hsame.
  - right. exact Hsame.
  - congruence.
Qed.

(** ** Value restriction *)

Section StructuralSections.
Variable recur : JsonValue -> Schema -> string -> Completion (list ValidationError).



End StructuralSections.




(** ** The nodes of a normalized schema *)

Lemma withField_absent {R : Type} (key : string) (found : JsonValue -> R) (missing : R)
    (fields : JsonObject) :
  has_key key fields = false -> withField key found missing fields = missing.
Proof.
  induction fields as [|[k v] rest IH]; simpl; [reflexivity|].
  destruct (k =? key); simpl; [discriminate | exact IH].
Qed.

Lemma withField_compose {R S : Type} (h : R -> S) (key : string) (found : JsonValue -> R)
    (missing : R) (fields : JsonObject) :
  h (withField key found missing fields)
  = withField key (fun v => h (found v)) (h missing) fields.
Proof.
  induction fields as [|[k v] rest IH]; simpl; [reflexivity|].
  now destruct (k =? key).
Qed.

Lemma withField_ext {R : Type} (key : string) (found found' : JsonValue -> R) (missing : R)
    (fields : JsonObject) :
  (forall v, found v = found' v) ->
  withField key found missing fields = withField key found' missing fields.
Proof.
  intros Hext. induction fields as [|[k v] rest IH]; simpl; [reflexivity|].
  destruct (k =? key); [apply Hext | exact IH].
Qed.

Lemma forallb_flat_map {A B : Type} (f : B -> bool) (g : A -> list B) (l : list A) :
  forallb f (flat_map g l) = forallb (fun x => forallb f (g x)) l.
Proof.
  induction l as [|x rest IH]; simpl; [reflexivity|].
  now rewrite forallb_app, IH.
Qed.

Lemma canonical_object (fields : JsonObject) :
  canonical (JObject fields)
  = carriesExactlyOne (JObject fields)
    && (withField "items" canonical true fields
        && (withField "oneOf" canonicalAlternatives true fields
            && withField "properties" canonicalProperties true fields)).
Proof.
  unfold canonical at 1. simpl schemaNodes. simpl forallb.
  rewrite !forallb_app. f_equal.
  rewrite !(withField_compose (forallb carriesExactlyOne)). simpl forallb.
  rewrite (withField_ext "oneOf" _ canonicalAlternatives),
    (withField_ext "properties" _ canonicalProperties); [reflexivity | |].
  - intros [| | | | | |props]; try reflexivity.
    simpl. apply forallb_flat_map.
  - intros [| | | | |alternatives|]; try reflexivity.
    simpl. apply forallb_flat_map.
Qed.

Lemma canonical_arraySchema (items : JsonValue) :
  canonical (arraySchema items) = canonical items.
Proof. unfold arraySchema. rewrite canonical_object. simpl. now rewrite andb_true_r. Qed.

Lemma canonical_unionOf (alternatives : list JsonValue) :
  canonical (unionOf alternatives) = forallb canonical alternatives.
Proof.
  unfold unionOf. rewrite canonical_object. simpl.
  now rewrite andb_true_r.
Qed.

Lemma admissible_explicit (fields : JsonObject) :
  negb (has_key "dataType" fields) && negb (has_key "oneOf" fields) = false ->
  admissible (JObject fields)
  = if has_key "oneOf" fields then
      negb (has_key "dataType" fields)
      && withField "oneOf" (admissibleAlternatives admissible) false fields
      && withField "items" canonical true fields
      && withField "properties" canonicalProperties true fields
    else
      withField "items" canonical true fields
      && withField "properties" (admissibleProperties admissible) true fields.
Proof. intros H. simpl. now rewrite H. Qed.

Section NormalizesCanonically.
Variable strict : bool.

Lemma canonical_list (elems normalized : list JsonValue) :
  Forall (normalizesCanonically strict) elems ->
  forallb admissible elems = true ->
  mapM (_normalizeSchema strict) elems = Normal normalized ->
  forallb canonical normalized = true.
Proof.
  intros IH Hadm Hmap. apply forallb_Forall. apply forallb_Forall in Hadm.
  apply mapM_Forall2 in Hmap. revert IH Hadm.
  induction Hmap as [|x y xs ys Hxy _ IHmap]; intros IH Hadm; [constructor|].
  inversion IH as [|? ? Hx Hrest1]; subst.
  inversion Hadm as [|? ? Ha Hrest2]; subst.
  constructor; [exact (Hx Ha y Hxy) | exact (IHmap Hrest1 Hrest2)].
Qed.

Lemma canonical_array (elems : list JsonValue) :
  Forall (normalizesCanonically strict) elems ->
  normalizesCanonically strict (JArray elems).
Proof.
  intros IH Hadm n Hn. simpl in Hadm. apply andb_prop in Hadm as [Hne Hall].
  simpl in Hn. destruct (1 <? List.length elems)%nat.
  - apply bind_Normal in Hn as [alternatives [Hmap Hn]]. injection Hn as <-.
    rewrite canonical_arraySchema, canonical_unionOf.
    eapply canonical_list; eassumption.
  - apply bind_Normal in Hn as [items [Hitems Hn]]. injection Hn as <-.
    rewrite canonical_arraySchema.
    destruct elems as [|firstItem rest]; [discriminate|].
    inversion IH as [|? ? Hfirst _]; subst.
    simpl in Hall. apply andb_prop in Hall as [Ha _].
    exact (Hfirst Ha items Hitems).
Qed.

Lemma canonical_object_schema (fields : JsonObject) :
  Forall (fun kv => normalizesCanonically strict (snd kv)) fields ->
  Forall (fun kv => match snd kv with
                    | JArray elems => Forall (normalizesCanonically strict) elems
                    | JObject props =>
                        Forall (fun kv => normalizesCanonically strict (snd kv)) props
                    | _ => True
                    end) fields ->
  normalizesCanonically strict (JObject fields).
Proof.
  intros IH IH2 Hadm n Hn.
  destruct (has_key "oneOf" fields) eqn:Ho.
  - (* union *)
    rewrite admissible_explicit in Hadm by (rewrite Ho; apply andb_false_r).
    rewrite Ho in Hadm.
    apply andb_prop in Hadm as [Hadm Hprops].
    apply andb_prop in Hadm as [Hadm Hitems].
    apply andb_prop in Hadm as [Hd Halts].
    apply negb_true_iff in Hd.
    rewrite withField_present in Halts by exact Ho.
    pose proof (Forall_get
                  (fun v => match v with
                            | JArray elems => Forall (normalizesCanonically strict) elems
                            | JObject props =>
                                Forall (fun kv => normalizesCanonically strict (snd kv)) props
                            | _ => True
                            end) "oneOf" fields IH2 Ho) as Hdeep.
    destruct (get "oneOf" fields) as [| | | | |elems|] eqn:Hget; try discriminate.
    simpl in Halts.
    rewrite (normalize_union strict fields elems Hget) in Hn.
    apply bind_Normal in Hn as [alternatives [Hmap Hn]]. injection Hn as <-.
    rewrite canonical_object.
    rewrite withField_setField_same, !withField_setField_other by reflexivity.
    rewrite Hitems, Hprops. simpl canonicalAlternatives.
    rewrite (canonical_list _ _ Hdeep Halts Hmap).
    unfold carriesExactlyOne. simpl.
    rewrite has_key_setField_same, has_key_setField_other by reflexivity.
    now rewrite Hd.
  - destruct (has_key "dataType" fields) eqn:Hd.
    + rewrite admissible_explicit in Hadm by (now rewrite Hd).
      rewrite Ho in Hadm. apply andb_prop in Hadm as [Hitems Hprops].
      assert (Hone : withField "oneOf" canonicalAlternatives true fields = true)
        by (now apply withField_absent).
      destruct (has_key "properties" fields) eqn:Hp.
      * rewrite withField_present in Hprops by exact Hp.
        pose proof (Forall_get
                      (fun v => match v with
                                | JArray elems =>
                                    Forall (normalizesCanonically strict) elems
                                | JObject props =>
                                    Forall (fun kv => normalizesCanonically strict (snd kv))
                                      props
                                | _ => True
                                end) "properties" fields IH2 Hp) as Hdeep.
        rewrite (normalize_explicit_properties _ _ Hd Ho Hp) in Hn.
        apply bind_Normal in Hn as [np [Hnp Hn]]. injection Hn as <-.
        destruct (get "properties" fields) as [| | | | | |props]; try discriminate.
        simpl in Hprops, Hnp.
        assert (Hcanon : forallb (fun kv => canonical (snd kv)) np = true).
        { apply forallb_Forall. apply forallb_Forall in Hprops.
          apply mapM_Forall2 in Hnp. revert Hdeep Hprops.
          induction Hnp as [|[k v] [k' n] xs ys Hxy _ IHnp]; intros Hdeep Hprops;
            [constructor|].
          inversion Hdeep as [|? ? Hv Hrest1]; subst.
          inversion Hprops as [|? ? Ha Hrest2]; subst.
          constructor; [|exact (IHnp Hrest1 Hrest2)].
          simpl in *. apply bind_Normal in Hxy as [n' [Hn' Hxy]].
          injection Hxy as _ <-. exact (Hv Ha n' Hn'). }
        rewrite canonical_object.
        rewrite withField_setField_same, !withField_setField_other by reflexivity.
        rewrite Hitems, Hone. simpl canonicalProperties. rewrite Hcanon.
        unfold carriesExactlyOne. simpl.
        rewrite !has_key_setField_other by reflexivity.
        now rewrite Hd, Ho.
      * rewrite (normalize_unchanged _ _ Hd Ho Hp) in Hn. injection Hn as <-.
        rewrite canonical_object, Hitems, Hone.
        rewrite (withField_absent "properties" canonicalProperties true fields Hp).
        unfold carriesExactlyOne. simpl. now rewrite Hd, Ho.
    + (* implicit object schema *)
      simpl in Hadm. rewrite Hd, Ho in Hadm. simpl in Hadm.
      rewrite (normalize_implicit _ _ Hd Ho) in Hn.
      apply bind_Normal in Hn as [np [Hnp Hn]]. injection Hn as <-.
      rewrite canonical_object. simpl.
      apply forallb_Forall. apply forallb_Forall in Hadm.
      apply mapM_Forall2 in Hnp. clear Hd Ho. revert IH IH2 Hadm.
      induction Hnp as [|[key value] [k v] xs ys Hxy _ IHnp]; intros IH IH2 Hadm;
        [constructor|].
      inversion IH as [|? ? Hvalue Hrest1]; subst.
      inversion IH2 as [|? ? Hdeep Hrest2]; subst.
      inversion Hadm as [|? ? Ha Hrest3]; subst.
      constructor; [|exact (IHnp Hrest1 Hrest2 Hrest3)].
      simpl in *.
      assert (Hother : admissible value = true ->
                       (normalized <- _normalizeSchema strict value ;;
                        Normal (key, normalized)) = Normal (k, v) ->
                       canonical v = true).
      { intros Hav H. apply bind_Normal in H as [n' [Hn' H]].
        injection H as _ <-. exact (Hvalue Hav n' Hn'). }
      destruct value as [| | | | |elems|]; try (now apply Hother).
      apply bind_Normal in Hxy as [items [Hitems Hxy]]. injection Hxy as _ <-.
      rewrite canonical_arraySchema.
      destruct elems as [|only [|second rest]].
      * apply bind_Normal in Hitems as [alts [Hmap Hitems]]. injection Hitems as <-.
        injection Hmap as <-. reflexivity.
      * inversion Hdeep as [|? ? Honly _]; subst.
        simpl in Ha. rewrite andb_true_r in Ha.
        exact (Honly Ha items Hitems).
      * apply bind_Normal in Hitems as [alts [Hmap Hitems]]. injection Hitems as <-.
        rewrite canonical_unionOf. eapply canonical_list; eassumption.
Qed.

Lemma normalize_canonical (schema : Schema) : normalizesCanonically strict schema.
Proof.
  induction schema as [| | | | |elems IH|fields IH IH2] using JsonValue_deep_ind;
    try (intros Hadm; discriminate Hadm).
  - intros _ result Hn. injection Hn as <-. reflexivity.
  - now apply canonical_array.
  - now apply canonical_object_schema.
Qed.
End NormalizesCanonically.

(** C4, as the code has it.  For a schema built from type names, non-empty
    array shorthands, implicit objects, unions without [dataType] and
    objects with [dataType], in which whatever the normalizer returns as
    written (every [items], and the [properties] kept beside a [oneOf]) is
    canonical already, every node of the normal form carries exactly one
    of [dataType] and [oneOf].  For any bare type, array shorthand or object
    the root of the normal form carries at least one of the two, and both
    only when the schema given carried both. *)
Theorem normalized_nodes_carry_exactly_one
    (strict : bool) (schema : Schema) (normalized : JsonValue) :
  _normalizeSchema strict schema = Normal normalized ->
  (admissible schema = true ->
   Forall (fun node => carriesExactlyOne node = true) (schemaNodes normalized))
  /\ (schemaShaped schema = true ->
      carries "dataType" normalized || carries "oneOf" normalized = true
      /\ (carries "dataType" normalized && carries "oneOf" normalized = true ->
          carries "dataType" schema && carries "oneOf" schema = true)).
Proof.
  intros Hn. split.
  - intros Hadm. apply forallb_Forall.
    exact (normalize_canonical strict schema Hadm normalized Hn).
  - intros Hshaped. exact (normalized_root_shape strict schema normalized Hn Hshaped).
Qed.

Lemma normalized_nodes_carry_exactly_one_witness :
  Forall (fun node => carriesExactlyOne node = true) (schemaNodes mixedNormalForm)
  /\ carries "dataType" mixedNormalForm || carries "oneOf" mixedNormalForm = true.
Proof.
  destruct (normalized_nodes_carry_exactly_one true mixedSchema mixedNormalForm)
    as [Hnodes Hroot]; [reflexivity|].
  split; [apply Hnodes | apply Hroot]; reflexivity.
Defined.

(** ** Further properties of the engine *)

Lemma validate_normal_form (fuel : nat) (strict : bool) (data : JsonValue)
    (schema : Schema) (normalized : JsonValue) (p : string) :
  _normalizeSchema strict schema = Normal normalized ->
  validate fuel strict data normalized p = validate fuel strict data schema p.
Proof.
  intros Hn.
  destruct fuel as [|fuel]; [reflexivity|].
  rewrite !validate_unfold. unfold validateBody.
  rewrite (proj1 (normalize_settles strict strict schema) normalized Hn), Hn.
  reflexivity.
Qed.




(** A schema that is a type and nothing else, in normal form *)
Lemma validate_leaf (fuel : nat) (strict : bool) (data : JsonValue) (t p : string) :
  validate (S fuel) strict data (JObject [("dataType", JString t)]) p
  = if t =? _getTypeOf data then Normal []
    else Normal [typeMismatchError p (JString t) (_getTypeOf data)].
Proof.
  rewrite (validate_normalized fuel strict data _ p [("dataType", JString t)])
    by reflexivity.
  simpl. rewrite andb_false_r.
  destruct (t =? _getTypeOf data); simpl; [|reflexivity].
  unfold validateObject, validateArray. simpl. now rewrite !andb_false_r.
Qed.

(** A bare type accepts exactly the values the classifier gives that type,
    and reports any other value by one type-mismatch error. *)
Theorem bare_type_accepts_its_values :
  forall fuel strict data t p,
    (validate (S fuel) strict data (JString t) p = Normal [] <-> _getTypeOf data = t)
    /\ (_getTypeOf data <> t ->
        validate (S fuel) strict data (JString t) p
        = Normal [ {| path := p;
                      expected := JString t;
                      received := _getTypeOf data;
                      message := "Expected type " ++ t ++ " but received "
                                 ++ _getTypeOf data |} ]).
Proof.
  intros fuel strict data t p.
  rewrite <- (validate_normal_form (S fuel) strict data (JString t)
                (JObject [("dataType", JString t)]) p eq_refl).
  rewrite validate_leaf.
  destruct (t =? _getTypeOf data) eqn:E.
  - apply String.eqb_eq in E. split; [split; auto | congruence].
  - apply String.eqb_neq in E. split; [split; [discriminate | congruence] | reflexivity].
Qed.

Lemma bare_type_accepts_its_values_witness :
  validate 1 strictDefault JNull (JString PropType.NULL) "" = Normal []
  /\ validate 1 strictDefault (JArray []) (JString PropType.OBJECT) "x"
     = Normal [ {| path := "x";
                   expected := JString PropType.OBJECT;
                   received := _getTypeOf (JArray []);
                   message := "Expected type " ++ PropType.OBJECT ++ " but received "
                              ++ _getTypeOf (JArray []) |} ].
Proof.
  split.
  - apply (proj1 (bare_type_accepts_its_values 0 strictDefault JNull PropType.NULL "")).
    reflexivity.
  - apply (proj2 (bare_type_accepts_its_values 0 strictDefault (JArray [])
                    PropType.OBJECT "x")).
    discriminate.
Defined.

(** A type with a list of allowed values accepts exactly the values of
    that type that the list includes. *)
Theorem allowedValues_accepts_listed_values :
  forall fuel strict data t allowed p,
    validate (S fuel) strict data
      (JObject [("dataType", JString t); ("allowedValues", JArray allowed)]) p
    = Normal []
    <-> _getTypeOf data = t /\ includes allowed data = true.
Proof.
  intros fuel strict data t allowed p.
  rewrite (validate_normalized fuel strict data _ p
             [("dataType", JString t); ("allowedValues", JArray allowed)])
    by reflexivity.
  simpl. rewrite andb_false_r.
  destruct (t =? _getTypeOf data) eqn:E; simpl.
  - apply String.eqb_eq in E.
    unfold validateObject, validateArray, checkAllowedValues. simpl.
    rewrite !andb_false_r.
    destruct (includes allowed data); simpl.
    + split; auto.
    + split; [discriminate | intros [_ H]; discriminate].
  - apply String.eqb_neq in E. split; [discriminate | intros [H _]; congruence].
Qed.

Lemma allowedValues_accepts_listed_values_witness :
  validate 1 strictDefault (JString "active")
    (JObject [("dataType", JString PropType.STRING);
              ("allowedValues", JArray [JString "active"; JString "inactive"])]) ""
  = Normal [].
Proof.
  apply (proj2 (allowedValues_accepts_listed_values 0 strictDefault (JString "active")
                  PropType.STRING [JString "active"; JString "inactive"] "")).
  split; reflexivity.
Defined.

(** The first alternative of a union that returns no error decides the
    call: the result is the check of the value against the union's own
    [allowedValues], and the alternatives after it are not looked at. *)
Theorem union_first_match_decides :
  forall fuel strict data schema p ns before alt after subErrors,
    _normalizeSchema strict schema = Normal (JObject ns) ->
    get "oneOf" ns = JArray (before ++ alt :: after) ->
    data <> JUndefined ->
    Forall2 (fun alt errs => validate fuel strict data alt p = Normal errs /\ errs <> [])
      before subErrors ->
    validate fuel strict data alt p = Normal [] ->
    validate (S fuel) strict data schema p
    = checkAllowedValues (get "allowedValues" ns) data p.
Proof.
  intros fuel strict data schema p ns before alt after subErrors
    Hn Hone Hdata Hbefore Halt.
  assert (Hkey : has_key "oneOf" ns = true)
    by (apply get_present; rewrite Hone; discriminate).
  rewrite (validate_normalized _ _ _ _ _ _ Hn).
  rewrite (isUndefined_false _ Hdata). simpl. rewrite Hkey.
  unfold validateUnion. rewrite Hone, (isUndefined_false _ Hdata).
  rewrite (tryAlternatives_first_match _ _ _ _ _ _ _ Hbefore Halt).
  reflexivity.
Qed.

Lemma union_first_match_decides_witness :
  validate 2 strictDefault (JNumber 1)
    (JObject [("oneOf", JArray [JString PropType.STRING; JString PropType.NUMBER;
                                brokenNumber]);
              ("allowedValues", JArray [JNumber 0; JNumber 1])]) ""
  = checkAllowedValues (JArray [JNumber 0; JNumber 1]) (JNumber 1) "".
Proof.
  apply (union_first_match_decides 1 strictDefault (JNumber 1)
           (JObject [("oneOf", JArray [JString PropType.STRING; JString PropType.NUMBER;
                                       brokenNumber]);
                     ("allowedValues", JArray [JNumber 0; JNumber 1])]) ""
           [("oneOf", JArray [JObject [("dataType", JString PropType.STRING)];
                              JObject [("dataType", JString PropType.NUMBER)];
                              brokenNumber]);
            ("allowedValues", JArray [JNumber 0; JNumber 1])]
           [JObject [("dataType", JString PropType.STRING)]]
           (JObject [("dataType", JString PropType.NUMBER)])
           [brokenNumber]
           [[typeMismatchError "" (JString "string") "number"]]).
  - reflexivity.
  - reflexivity.
  - discriminate.
  - repeat constructor; discriminate.
  - reflexivity.
Defined.

(** ** The error renderer *)

Lemma joinStrings_cons (sep first : string) (rest : list string) :
  exists tail, joinStrings sep (first :: rest) = first ++ tail.
Proof.
  simpl. revert first.
  induction rest as [|t rest IH]; intros first; simpl.
  - exists "". revert first. induction first as [|c s IHs]; simpl; congruence.
  - destruct (IH (first ++ sep ++ t)) as [tail ->].
    exists (sep ++ t ++ tail).
    clear. induction first as [|c s IHs]; simpl.
    + induction sep as [|c s IHs]; simpl; [reflexivity | now rewrite IHs].
    + now rewrite IHs.
Qed.

Lemma joinStrings_snoc (sep : string) (lines : list string) (last : string) :
  lines <> [] ->
  joinStrings sep (lines ++ [last]) = joinStrings sep lines ++ sep ++ last.
Proof.
  destruct lines as [|first rest]; [congruence|]. intros _.
  simpl. now rewrite fold_left_app.
Qed.

Lemma combine_snoc {A B : Type} (l : list A) (l' : list B) (x : A) (y : B) :
  List.length l = List.length l' ->
  combine (l ++ [x]) (l' ++ [y]) = (combine l l' ++ [(x, y)])%list.
Proof.
  revert l'. induction l as [|a l IH]; intros [|b l'] Hlen; try discriminate.
  - reflexivity.
  - simpl. injection Hlen as Hlen. now rewrite IH.
Qed.

(** The text for "no errors" is produced for the empty list and for no
    other: a rendering of one or more errors starts with the number 1. *)
Theorem formatErrors_no_errors_iff_empty :
  forall errors, formatErrors errors = "No validation errors" <-> errors = [].
Proof.
  intros errors. split.
  - destruct errors as [|error rest]; [reflexivity|].
    unfold formatErrors. simpl List.length. simpl Nat.eqb. cbv iota.
    simpl combine. simpl map.
    destruct (joinStrings_cons newline (formatError 0 error)
                (map (fun '(index, e) => formatError index e)
                   (combine (seq 1 (List.length rest)) rest))) as [tail ->].
    unfold formatError. discriminate.
  - intros ->. reflexivity.
Qed.

(** A rendered value is never the raw [[object Object]] or
    [[object Array]]: these are replaced by the type names. *)
Theorem formatValue_never_raw_object :
  forall value,
    formatValue value <> "[object Object]" /\ formatValue value <> "[object Array]".
Proof.
  intros value. unfold formatValue.
  destruct (isNull value); [split; discriminate|].
  destruct (isUndefined value); [split; discriminate|].
  destruct (toString value =? "[object Object]") eqn:Ho; [split; discriminate|].
  destruct (toString value =? "[object Array]") eqn:Ha; [split; discriminate|].
  apply String.eqb_neq in Ho, Ha.
  destruct (prefix "one of " (toString value));
    [|destruct (prefix "one of [" (toString value))]; split; assumption.
Qed.

(** Rendering is line by line: one more error adds one more line, numbered
    by its position, and leaves the lines before it as they were. *)
Theorem formatErrors_snoc :
  forall errors error,
    errors <> [] ->
    formatErrors (errors ++ [error])
    = formatErrors errors ++ newline ++ formatError (List.length errors) error.
Proof.
  intros errors error Hne. unfold formatErrors.
  rewrite length_app. simpl (List.length [error]).
  replace (List.length errors + 1 =? 0)%nat with false
    by (symmetry; apply Nat.eqb_neq; lia).
  replace (List.length errors =? 0)%nat with false
    by (symmetry; apply Nat.eqb_neq; destruct errors; simpl; [congruence | lia]).
  rewrite seq_app. simpl (seq _ 1).
  rewrite combine_snoc by apply length_seq.
  rewrite map_app. simpl (map _ [_]).
  apply joinStrings_snoc.
  destruct errors; [congruence | simpl; discriminate].
Qed.

Lemma formatErrors_snoc_witness :
  formatErrors ([dupError] ++ [dupError])
  = formatErrors [dupError] ++ newline ++ formatError (List.length [dupError]) dupError.
Proof. apply formatErrors_snoc. discriminate. Defined.

(** ** Unions, objects and arrays *)

(** A union never tries its alternatives on [undefined]: an optional union
    accepts it, any other union reports the one generic error, also when
    an alternative is the type [undefined]. *)
Theorem union_on_undefined :
  forall fuel strict schema p ns alternatives,
    _normalizeSchema strict schema = Normal (JObject ns) ->
    get "oneOf" ns = JArray alternatives ->
    validate (S fuel) strict JUndefined schema p
    = if truthy (get "optional" ns) then Normal []
      else Normal [ {| path := p;
                       expected := JString ("one of "
                                            ++ string_of_nat (List.length alternatives)
                                            ++ " possible types");
                       received := "undefined";
                       message := "Value does not match any of the allowed schemas" |} ].
Proof.
  intros fuel strict schema p ns alternatives Hn Hone.
  assert (Hkey : has_key "oneOf" ns = true)
    by (apply get_present; rewrite Hone; discriminate).
  rewrite (validate_normalized _ _ _ _ _ _ Hn). simpl.
  destruct (truthy (get "optional" ns)); [reflexivity|].
  rewrite Hkey. unfold validateUnion. now rewrite Hone.
Qed.

Lemma union_on_undefined_witness :
  validate 1 strictDefault JUndefined undefinedOrNothing ""
  = if truthy JUndefined then Normal []
    else Normal [ {| path := "";
                     expected := JString ("one of " ++ string_of_nat 1 ++ " possible types");
                     received := "undefined";
                     message := "Value does not match any of the allowed schemas" |} ].
Proof.
  apply (union_on_undefined 0 strictDefault undefinedOrNothing ""
           [("oneOf", JArray [JObject [("dataType", JString PropType.UNDEFINED)]]);
            ("allowedValues", JArray [])]
           [JObject [("dataType", JString PropType.UNDEFINED)]]); reflexivity.
Defined.

Lemma filter_nonempty {A : Type} (f : A -> bool) (l : list A) :
  existsb f l = true -> filter f l <> [].
Proof.
  induction l as [|x rest IH]; simpl; [discriminate|].
  destruct (f x); simpl; [discriminate | exact IH].
Qed.

(** A union with at least one alternative rejects a defined value that all
    its alternatives reject: the result is a non-empty list of errors. *)
Theorem union_rejects_what_all_alternatives_reject :
  forall fuel strict data schema p ns alternatives subErrors,
    _normalizeSchema strict schema = Normal (JObject ns) ->
    get "oneOf" ns = JArray alternatives ->
    data <> JUndefined ->
    alternatives <> [] ->
    Forall2 (fun alt errs => validate fuel strict data alt p = Normal errs /\ errs <> [])
      alternatives subErrors ->
    exists error rest, validate (S fuel) strict data schema p = Normal (error :: rest).
Proof.
  intros fuel strict data schema p ns alternatives subErrors Hn Hone Hdata Halts Hsub.
  assert (Hkey : has_key "oneOf" ns = true)
    by (apply get_present; rewrite Hone; discriminate).
  rewrite (validate_normalized _ _ _ _ _ _ Hn).
  rewrite (isUndefined_false _ Hdata). simpl. rewrite Hkey.
  unfold validateUnion. rewrite Hone, (isUndefined_false _ Hdata).
  rewrite (tryAlternatives_no_match _ _ _ _ _ Hsub). cbn [bind].
  assert (Hcombined : List.concat subErrors <> []).
  { inversion Hsub as [|alt errs alts ess [_ Hne] _]; subst; [now elim Halts|].
    simpl. destruct errs; [now elim Hne | discriminate]. }
  destruct (List.concat subErrors) as [|e combined] eqn:Hc; [congruence|].
  cbn [List.length Nat.ltb Nat.leb].
  destruct (existsb (pathDiffers p) (e :: combined)) eqn:Hprop.
  - apply filter_nonempty in Hprop.
    destruct (filter (pathDiffers p) (e :: combined)) as [|e' rest]; [congruence|].
    now exists e', rest.
  - rewrite (existsb_pathEquals p (e :: combined)) by (discriminate || exact Hprop).
    eexists; eexists; reflexivity.
Qed.

Lemma union_rejects_what_all_alternatives_reject_witness :
  exists error rest,
    validate 2 strictDefault (JBoolean true) stringOrNumber "" = Normal (error :: rest).
Proof.
  apply (union_rejects_what_all_alternatives_reject 1 strictDefault (JBoolean true)
           stringOrNumber ""
           [("oneOf", JArray [JObject [("dataType", JString PropType.STRING)];
                              JObject [("dataType", JString PropType.NUMBER)]])]
           [JObject [("dataType", JString PropType.STRING)];
            JObject [("dataType", JString PropType.NUMBER)]]
           [[typeMismatchError "" (JString "string") "boolean"];
            [typeMismatchError "" (JString "number") "boolean"]]).
  - reflexivity.
  - reflexivity.
  - discriminate.
  - discriminate.
  - repeat constructor; discriminate.
Defined.









Lemma validate_array_data (fuel : nat) (strict : bool) (elems : list JsonValue)
    (schema : Schema) (p : string) (ns : JsonObject) :
  _normalizeSchema strict schema = Normal (JObject ns) ->
  has_key "oneOf" ns = false ->
  get "dataType" ns = JString PropType.ARRAY ->
  has_key "items" ns = true ->
  truthy (get "allowedValues" ns) = false ->
  validate (S fuel) strict (JArray elems) schema p
  = (itemErrors <-
       mapM (fun '(i, item) => validate fuel strict item (get "items" ns) (itemPath p i))
         (combine (seq 0 (List.length elems)) elems) ;;
     Normal (List.concat itemErrors)).
Proof.
  intros Hn Hone Htype Hitems Hallowed.
  rewrite (validate_normalized _ _ _ _ _ _ Hn). simpl isUndefined. cbn [andb].
  rewrite Hone, Htype. simpl isString. cbn [negb].
  unfold checkAllowedValues. rewrite Hallowed. cbn [bind].
  unfold validateObject. rewrite Htype. simpl.
  unfold validateArray. rewrite Htype, Hitems. simpl.
  unfold validateItems.
  match goal with
  | |- context [mapM ?f ?l] => destruct (mapM f l) as [itemErrors| |]
  end; reflexivity.
Qed.

(** Array data against an array schema: every element is validated
    against [items] at the path extended by its index, in index order, and
    all the errors are kept; the empty array is accepted whatever [items]
    is. *)
Theorem array_items_all_validated :
  forall fuel strict schema p ns,
    _normalizeSchema strict schema = Normal (JObject ns) ->
    has_key "oneOf" ns = false ->
    get "dataType" ns = JString PropType.ARRAY ->
    has_key "items" ns = true ->
    truthy (get "allowedValues" ns) = false ->
    (forall elems,
        validate (S fuel) strict (JArray elems) schema p
        = (itemErrors <-
             mapM (fun '(i, item) =>
                     validate fuel strict item (get "items" ns) (itemPath p i))
               (combine (seq 0 (List.length elems)) elems) ;;
           Normal (List.concat itemErrors)))
    /\ validate (S fuel) strict (JArray []) schema p = Normal [].
Proof.
  intros fuel strict schema p ns Hn Hone Htype Hitems Hallowed. split.
  - intros elems. now apply validate_array_data.
  - now rewrite (validate_array_data _ _ _ _ _ _ Hn Hone Htype Hitems Hallowed).
Qed.

Lemma array_items_all_validated_witness :
  validate 1 strictDefault (JArray []) emptyArraySchema "" = Normal [].
Proof.
  apply (array_items_all_validated 0 strictDefault emptyArraySchema ""
           [("dataType", JString PropType.ARRAY); ("items", JUndefined)]); reflexivity.
Defined.

(** The "Expected array" error of the array section is never returned:
    when the section is entered the data is an array. *)
Theorem expected_array_error_unreachable :
  forall fuel strict data schema p errs e,
    validate fuel strict data schema p = Normal errs ->
    In e errs ->
    prefix "Expected array but received " (message e) = false.
Proof.
  intros fuel strict data schema p errs e Hv He.
  assert (Hall : Forall (fun e => prefix "Expected array but received " (message e)
                                  = false) errs).
  2: { rewrite Forall_forall in Hall. exact (Hall e He). }
  apply (validate_errors_invariant
           (fun _ e => prefix "Expected array but received " (message e) = false))
    with (fuel := fuel) (strict := strict) (data := data) (schema := schema) (p := p);
    [..|exact Hv]; clear; intros; try reflexivity; assumption.
Qed.

Lemma expected_array_error_unreachable_witness :
  prefix "Expected array but received "
    (message (typeMismatchError "tags[1]" (JString "string") "number")) = false.
Proof.
  apply (expected_array_error_unreachable 3 strictDefault tagsData tagsSchema ""
           [typeMismatchError "tags[1]" (JString "string") "number"]).
  - reflexivity.
  - left. reflexivity.
Defined.

(** ** The classifier *)

(** The classifier returns one of the seven type tags, and tells [null],
    arrays and plain objects apart: [array] for arrays only, [null] for
    [null] only, [object] for objects only. *)
Theorem getTypeOf_classifies :
  forall data,
    In (_getTypeOf data)
      [PropType.UNDEFINED; PropType.NULL; PropType.BOOLEAN; PropType.NUMBER;
       PropType.STRING; PropType.ARRAY; PropType.OBJECT]
    /\ (_getTypeOf data = PropType.ARRAY <-> isArray data = true)
    /\ (_getTypeOf data = PropType.NULL <-> data = JNull)
    /\ (_getTypeOf data = PropType.OBJECT <-> exists fields, data = JObject fields)
    /\ (_getTypeOf data = PropType.UNDEFINED <-> data = JUndefined).
Proof.
  intros data.
  destruct data; (split; [cbv; tauto|]);
    repeat split; intros H; try discriminate H; try reflexivity;
    try (destruct H as [fields H]; discriminate H);
    try (eexists; reflexivity).
Qed.

(** ** The paths handed to properties and elements *)






(** ** The normalizer on well-formed schemas *)

Lemma mapM_returns {A B : Type} (f : A -> Completion B) (R : B -> Prop) (l : list A) :
  Forall (fun x => exists y, f x = Normal y /\ R y) l ->
  exists ys, mapM f l = Normal ys /\ Forall R ys.
Proof.
  induction 1 as [|x rest [y [Hy Hr]] _ [ys [Hys Hall]]]; simpl.
  - exists []. split; [reflexivity | constructor].
  - exists (y :: ys). rewrite Hy, Hys. split; [reflexivity | now constructor].
Qed.

Lemma wellFormed_arraySchema (items : JsonValue) :
  wellFormed (arraySchema items) = wellFormed items.
Proof. reflexivity. Qed.

Lemma wellFormed_unionOf (alternatives : list JsonValue) :
  wellFormed (unionOf alternatives) = forallb wellFormed alternatives.
Proof. reflexivity. Qed.

Lemma wellFormed_explicit (fields : JsonObject) :
  negb (has_key "dataType" fields) && negb (has_key "oneOf" fields) = false ->
  wellFormed (JObject fields)
  = allowedValuesOk (get "allowedValues" fields)
    && (if has_key "oneOf" fields then
          withField "oneOf" (wellFormedAlternatives wellFormed) false fields
        else
          withField "properties" (wellFormedProperties wellFormed) true fields
          && withField "items" wellFormed true fields).
Proof. intros H. simpl. now rewrite H. Qed.

Section NormalizeWellFormed.
Variable strict : bool.

Lemma normalizesWell_list (elems : list JsonValue) :
  Forall (normalizesWell strict) elems ->
  forallb wellFormed elems = true ->
  exists alternatives,
    mapM (_normalizeSchema strict) elems = Normal alternatives
    /\ forallb wellFormed alternatives = true.
Proof.
  intros IH Hwf. apply forallb_Forall in Hwf.
  destruct (mapM_returns (_normalizeSchema strict) (fun n => wellFormed n = true) elems)
    as [alts [Hmap Hall]].
  - revert Hwf. induction IH as [|x rest Hx _ IHrest]; intros Hwf; [constructor|].
    inversion Hwf as [|? ? Hw Hrest]; subst.
    constructor; [|exact (IHrest Hrest)].
    destruct (Hx Hw) as [n [Hn [Hwn _]]]. eauto.
  - exists alts. split; [exact Hmap | now apply forallb_Forall].
Qed.

Lemma normalizesWell_array (elems : list JsonValue) :
  Forall (normalizesWell strict) elems -> normalizesWell strict (JArray elems).
Proof.
  intros IH Hwf. simpl in Hwf. apply andb_prop in Hwf as [Hne Hall].
  simpl. destruct (1 <? List.length elems)%nat.
  - destruct (normalizesWell_list elems IH Hall) as [alts [-> Halts]]. simpl.
    eexists. split; [reflexivity|]. split; [|reflexivity].
    now rewrite wellFormed_arraySchema, wellFormed_unionOf.
  - destruct elems as [|firstItem rest]; [discriminate|].
    inversion IH as [|? ? Hfirst _]; subst.
    simpl in Hall. apply andb_prop in Hall as [Hw _].
    destruct (Hfirst Hw) as [n [-> [Hn _]]]. simpl.
    eexists. split; [reflexivity|]. split; [|reflexivity].
    now rewrite wellFormed_arraySchema.
Qed.

Lemma normalizesWell_object (fields : JsonObject) :
  Forall (fun kv => normalizesWell strict (snd kv)) fields ->
  Forall (fun kv => match snd kv with
                    | JArray elems => Forall (normalizesWell strict) elems
                    | JObject props => Forall (fun kv => normalizesWell strict (snd kv)) props
                    | _ => True
                    end) fields ->
  normalizesWell strict (JObject fields).
Proof.
  intros IH IH2 Hwf.
  destruct (has_key "oneOf" fields) eqn:Ho.
  - (* union *)
    rewrite wellFormed_explicit in Hwf by (rewrite Ho; apply andb_false_r).
    rewrite Ho in Hwf. apply andb_prop in Hwf as [Hallowed Halts].
    rewrite withField_present in Halts by exact Ho.
    pose proof (Forall_get
                  (fun v => match v with
                            | JArray elems => Forall (normalizesWell strict) elems
                            | JObject props =>
                                Forall (fun kv => normalizesWell strict (snd kv)) props
                            | _ => True
                            end) "oneOf" fields IH2 Ho) as Hdeep.
    destruct (get "oneOf" fields) as [| | | | |elems|] eqn:Hget; try discriminate.
    simpl in Halts.
    destruct (normalizesWell_list elems Hdeep Halts) as [alts [Hmap Hw]].
    rewrite (normalize_union strict fields elems Hget), Hmap. simpl.
    eexists. split; [reflexivity|]. split.
    + rewrite wellFormed_explicit
        by (rewrite has_key_setField_same; apply andb_false_r).
      rewrite has_key_setField_same, withField_setField_same.
      rewrite get_setField_other by reflexivity.
      rewrite Hallowed. exact Hw.
    + simpl. rewrite has_key_setField_same. apply orb_true_r.
  - destruct (has_key "dataType" fields) eqn:Hd.
    + rewrite wellFormed_explicit in Hwf by (now rewrite Hd).
      rewrite Ho in Hwf. apply andb_prop in Hwf as [Hallowed Hrest].
      apply andb_prop in Hrest as [Hprops Hitems].
      destruct (has_key "properties" fields) eqn:Hp.
      * (* explicit properties *)
        rewrite withField_present in Hprops by exact Hp.
        pose proof (Forall_get
                      (fun v => match v with
                                | JArray elems => Forall (normalizesWell strict) elems
                                | JObject props =>
                                    Forall (fun kv => normalizesWell strict (snd kv)) props
                                | _ => True
                                end) "properties" fields IH2 Hp) as Hdeep.
        destruct (get "properties" fields) as [| | | | | |props] eqn:Hget;
          try discriminate.
        simpl in Hprops. apply forallb_Forall in Hprops.
        destruct (mapM_returns (normalizeProperty (_normalizeSchema strict))
                    (fun kv => wellFormed (snd kv) = true) props) as [np [Hmap Hnp]].
        { clear Hget. revert Hprops.
          induction Hdeep as [|[k v] rest Hv _ IHrest]; intros Hprops; [constructor|].
          inversion Hprops as [|? ? Hw Hrest]; subst.
          constructor; [|exact (IHrest Hrest)].
          simpl in *. destruct (Hv Hw) as [n [-> [Hn _]]].
          simpl. eexists. split; [reflexivity | exact Hn]. }
        rewrite (normalize_explicit_properties _ _ Hd Ho Hp), Hget. simpl.
        rewrite Hmap. simpl.
        eexists. split; [reflexivity|]. split.
        -- rewrite wellFormed_explicit
             by (rewrite !has_key_setField_other by reflexivity; now rewrite Hd).
           rewrite has_key_setField_other, Ho by reflexivity.
           rewrite withField_setField_same, withField_setField_other by reflexivity.
           rewrite get_setField_other by reflexivity.
           rewrite Hallowed, Hitems. simpl. rewrite andb_true_r.
           now apply forallb_Forall.
        -- simpl. rewrite has_key_setField_other by reflexivity. now rewrite Hd.
      * rewrite (normalize_unchanged _ _ Hd Ho Hp).
        eexists. split; [reflexivity|]. split.
        -- rewrite wellFormed_explicit by (now rewrite Hd).
           now rewrite Ho, Hallowed, Hprops, Hitems.
        -- simpl. now rewrite Hd.
    + (* implicit object schema *)
      simpl in Hwf. rewrite Hd, Ho in Hwf. simpl in Hwf.
      apply forallb_Forall in Hwf.
      destruct (mapM_returns (normalizeShorthandProperty (_normalizeSchema strict))
                  (fun kv => wellFormed (snd kv) = true) fields) as [np [Hmap Hnp]].
      { clear Hd Ho. revert IH2 Hwf. induction IH as [|[key value] rest Hv _ IHrest];
          intros IH2 Hwf; [constructor|].
        inversion IH2 as [|? ? Hdeep Hrest2]; subst.
        inversion Hwf as [|? ? Hw Hrest]; subst.
        constructor; [|exact (IHrest Hrest2 Hrest)].
        simpl in *.
        assert (Hother : wellFormed value = true ->
                         exists y,
                           (normalized <- _normalizeSchema strict value ;;
                            Normal (key, normalized)) = Normal y
                           /\ wellFormed (snd y) = true).
        { intros Hwv. destruct (Hv Hwv) as [n [-> [Hn _]]]. simpl.
          eexists. split; [reflexivity | exact Hn]. }
        destruct value as [| | | | |elems|]; try (now apply Hother).
        destruct elems as [|only [|second rest']].
        - simpl. eexists. split; reflexivity.
        - simpl in Hw. rewrite andb_true_r in Hw.
          inversion Hdeep as [|? ? Honly _]; subst.
          destruct (Honly Hw) as [n [-> [Hn _]]]. simpl.
          eexists. split; [reflexivity | exact Hn].
        - assert (Hall : forallb wellFormed (only :: second :: rest') = true)
            by (simpl in Hw; exact Hw).
          destruct (normalizesWell_list _ Hdeep Hall) as [alts [Hmap Halts]].
          rewrite Hmap. simpl. eexists. split; [reflexivity|].
          simpl. exact Halts. }
      rewrite (normalize_implicit _ _ Hd Ho), Hmap. simpl.
      eexists. split; [reflexivity|]. split; [|reflexivity].
      simpl. rewrite andb_true_r. now apply forallb_Forall.
Qed.

Lemma normalize_wellFormed (schema : Schema) : normalizesWell strict schema.
Proof.
  induction schema as [| | | | |elems IH|fields IH IH2] using JsonValue_deep_ind;
    try (intros Hwf; discriminate Hwf).
  - intros _. eexists. split; [reflexivity|]. split; reflexivity.
  - now apply normalizesWell_array.
  - now apply normalizesWell_object.
Qed.
End NormalizeWellFormed.

(** On a well-formed schema the normalizer does not throw, and what it
    returns is again well-formed and carries [dataType] or [oneOf]. *)
Theorem normalize_returns_on_wellFormed :
  forall strict schema,
    wellFormed schema = true ->
    exists normalized,
      _normalizeSchema strict schema = Normal normalized
      /\ wellFormed normalized = true
      /\ carries "dataType" normalized || carries "oneOf" normalized = true.
Proof.
  intros strict schema Hwf. exact (normalize_wellFormed strict schema Hwf).
Qed.

Lemma normalize_returns_on_wellFormed_witness :
  exists normalized,
    _normalizeSchema strictDefault tagsSchema = Normal normalized
    /\ wellFormed normalized = true
    /\ carries "dataType" normalized || carries "oneOf" normalized = true.
Proof. apply normalize_returns_on_wellFormed. reflexivity. Defined.

Lemma normalize_shaped_gives_object (strict : bool) (schema : Schema)
    (normalized : JsonValue) :
  schemaShaped schema = true ->
  _normalizeSchema strict schema = Normal normalized ->
  exists ns, normalized = JObject ns.
Proof.
  intros Hshape Hn.
  destruct schema as [| | | |s|elems|fields]; try discriminate Hshape; simpl in Hn.
  - injection Hn as <-. eexists; reflexivity.
  - destruct (1 <? List.length elems)%nat;
      apply bind_Normal in Hn as [x [_ Hn]]; injection Hn as <-; eexists; reflexivity.
  - destruct (negb (has_key "dataType" fields) && negb (has_key "oneOf" fields)).
    { apply bind_Normal in Hn as [np [_ Hn]]. injection Hn as <-. eexists; reflexivity. }
    destruct (has_key "oneOf" fields) eqn:Ho.
    { rewrite withField_present in Hn by exact Ho.
      destruct (get "oneOf" fields); try discriminate.
      apply bind_Normal in Hn as [alts [_ Hn]]. injection Hn as <-.
      eexists; reflexivity. }
    destruct (has_key "properties" fields) eqn:Hp.
    { rewrite withField_present in Hn by exact Hp.
      apply bind_Normal in Hn as [np [_ Hn]]. injection Hn as <-.
      eexists; reflexivity. }
    injection Hn as <-. eexists; reflexivity.
Qed.

(** What the normalizer returns: for a bare type, an array shorthand or an
    object it is an object, with an array under [oneOf] if it has that
    key; [undefined], a boolean or a number is handed back as given.  It
    never returns a string, an array or [null]. *)
Theorem normalize_returns_object_or_unchanged :
  forall strict schema normalized,
    _normalizeSchema strict schema = Normal normalized ->
    (exists ns,
        normalized = JObject ns
        /\ (has_key "oneOf" ns = true ->
            exists alternatives, get "oneOf" ns = JArray alternatives))
    \/ (normalized = schema /\ schemaShaped schema = false).
Proof.
  intros strict schema normalized Hn.
  destruct (schemaShaped schema) eqn:Hshape.
  - left. destruct (normalize_shaped_gives_object _ _ _ Hshape Hn) as [ns ->].
    exists ns. split; [reflexivity|].
    intros Hkey. eapply normalize_oneOf_is_array; eassumption.
  - right. split; [|reflexivity].
    destruct schema; try discriminate Hshape; simpl in Hn; try discriminate Hn;
      now injection Hn as <-.
Qed.

Lemma normalize_returns_object_or_unchanged_witness :
  (exists ns,
      arraySchema (unionOf []) = JObject ns
      /\ (has_key "oneOf" ns = true ->
          exists alternatives, get "oneOf" ns = JArray alternatives))
  \/ (arraySchema (unionOf []) = arraySchema (unionOf [])
      /\ schemaShaped (arraySchema (unionOf [])) = false).
Proof.
  apply (normalize_returns_object_or_unchanged strictDefault (arraySchema (unionOf []))).
  reflexivity.
Defined.

Lemma validate_total_witness :
  (exists errs, forall fuel, rank emptyArraySchema < fuel ->
                             validate fuel strictDefault (JArray [JNumber 1])
                               emptyArraySchema "" = Normal errs)
  \/ (forall fuel, rank emptyArraySchema < fuel ->
                   validate fuel strictDefault (JArray [JNumber 1]) emptyArraySchema ""
                   = TypeError).
Proof. apply validate_total. Defined.

(** ** The strict flag matters to object shorthand only *)

Lemma mapM_ext_in {A B : Type} (f g : A -> Completion B) (l : list A) :
  Forall (fun x => f x = g x) l -> mapM f l = mapM g l.
Proof.
  induction 1 as [|x rest Hx _ IH]; simpl; [reflexivity | now rewrite Hx, IH].
Qed.

Lemma shorthandFree_arraySchema (items : JsonValue) :
  shorthandFree (arraySchema items) = shorthandFree items.
Proof. reflexivity. Qed.

Lemma shorthandFree_explicit (fields : JsonObject) :
  negb (has_key "dataType" fields) && negb (has_key "oneOf" fields) = false ->
  shorthandFree (JObject fields)
  = if has_key "oneOf" fields then
      withField "oneOf" (shorthandFreeAlternatives shorthandFree) true fields
    else
      withField "properties" (shorthandFreeProperties shorthandFree) true fields
      && withField "items" shorthandFree true fields.
Proof. intros H. simpl. now rewrite H. Qed.

Section FlagFree.
Variables strict strict' : bool.

Lemma flagFree_list (elems : list JsonValue) :
  Forall (flagFree strict strict') elems ->
  forallb shorthandFree elems = true ->
  mapM (_normalizeSchema strict) elems = mapM (_normalizeSchema strict') elems
  /\ forall normalized,
       mapM (_normalizeSchema strict) elems = Normal normalized ->
       forallb shorthandFree normalized = true.
Proof.
  intros IH Hfree. apply forallb_Forall in Hfree. split.
  - apply mapM_ext_in. revert Hfree.
    induction IH as [|x rest Hx _ IHrest]; intros Hfree; [constructor|].
    inversion Hfree as [|? ? Hw Hrest]; subst.
    constructor; [exact (proj1 (Hx Hw)) | exact (IHrest Hrest)].
  - intros normalized Hmap. apply mapM_Forall2 in Hmap. apply forallb_Forall.
    revert IH Hfree. induction Hmap as [|x y xs ys Hxy _ IHmap]; intros IH Hfree;
      [constructor|].
    inversion IH as [|? ? Hx Hrest1]; subst.
    inversion Hfree as [|? ? Hw Hrest2]; subst.
    constructor; [exact (proj2 (Hx Hw) y Hxy) | exact (IHmap Hrest1 Hrest2)].
Qed.

Lemma flagFree_properties (props : JsonObject) :
  Forall (fun kv => flagFree strict strict' (snd kv)) props ->
  forallb (fun kv => shorthandFree (snd kv)) props = true ->
  mapM (normalizeProperty (_normalizeSchema strict)) props
  = mapM (normalizeProperty (_normalizeSchema strict')) props
  /\ forall normalized,
       mapM (normalizeProperty (_normalizeSchema strict)) props = Normal normalized ->
       forallb (fun kv => shorthandFree (snd kv)) normalized = true.
Proof.
  intros IH Hfree. apply forallb_Forall in Hfree. split.
  - apply mapM_ext_in. revert Hfree.
    induction IH as [|[k v] rest Hx _ IHrest]; intros Hfree; [constructor|].
    inversion Hfree as [|? ? Hw Hrest]; subst.
    constructor; [|exact (IHrest Hrest)].
    simpl in *. now rewrite (proj1 (Hx Hw)).
  - intros normalized Hmap. apply mapM_Forall2 in Hmap. apply forallb_Forall.
    revert IH Hfree. induction Hmap as [|[k v] [k' n] xs ys Hxy _ IHmap]; intros IH Hfree;
      [constructor|].
    inversion IH as [|? ? Hx Hrest1]; subst.
    inversion Hfree as [|? ? Hw Hrest2]; subst.
    constructor; [|exact (IHmap Hrest1 Hrest2)].
    simpl in *. apply bind_Normal in Hxy as [n' [Hn' Hxy]]. injection Hxy as _ <-.
    exact (proj2 (Hx Hw) n' Hn').
Qed.

Lemma forallb_combine_snd {A : Type} (f : JsonValue -> bool) (keys : list A)
    (l : list JsonValue) :
  forallb f l = true -> forallb (fun kv => f (snd kv)) (combine keys l) = true.
Proof.
  revert keys. induction l as [|x rest IH]; intros [|k keys]; simpl; try reflexivity.
  intros H. apply andb_prop in H as [Hx Hrest]. now rewrite Hx, IH.
Qed.

Lemma flagFree_object (fields : JsonObject) :
  Forall (fun kv => match snd kv with
                    | JArray elems => Forall (flagFree strict strict') elems
                    | JObject props =>
                        Forall (fun kv => flagFree strict strict' (snd kv)) props
                    | _ => True
                    end) fields ->
  flagFree strict strict' (JObject fields).
Proof.
  intros IH2 Hfree.
  destruct (negb (has_key "dataType" fields) && negb (has_key "oneOf" fields)) eqn:Himp.
  { simpl in Hfree. rewrite Himp in Hfree. discriminate. }
  rewrite shorthandFree_explicit in Hfree by exact Himp.
  destruct (has_key "oneOf" fields) eqn:Ho.
  - (* union *)
    rewrite withField_present in Hfree by exact Ho.
    pose proof (Forall_get
                  (fun v => match v with
                            | JArray elems => Forall (flagFree strict strict') elems
                            | JObject props =>
                                Forall (fun kv => flagFree strict strict' (snd kv)) props
                            | _ => True
                            end) "oneOf" fields IH2 Ho) as Hdeep.
    simpl. rewrite Ho, andb_false_r, !withField_present by exact Ho.
    destruct (get "oneOf" fields) as [| | | | |elems|]; try (split; [reflexivity|discriminate]).
    simpl in Hfree.
    destruct (flagFree_list elems Hdeep Hfree) as [Heq Hres]. rewrite <- Heq.
    split; [reflexivity|].
    intros n Hn. apply bind_Normal in Hn as [alts [Hmap Hn]]. injection Hn as <-.
    rewrite shorthandFree_explicit by (rewrite has_key_setField_same; apply andb_false_r).
    rewrite has_key_setField_same, withField_setField_same. simpl. now apply Hres.
  - assert (Hd : has_key "dataType" fields = true)
      by (destruct (has_key "dataType" fields); [reflexivity | discriminate Himp]).
    apply andb_prop in Hfree as [Hprops Hitems].
    destruct (has_key "properties" fields) eqn:Hp.
    + rewrite withField_present in Hprops by exact Hp.
      pose proof (Forall_get
                    (fun v => match v with
                              | JArray elems => Forall (flagFree strict strict') elems
                              | JObject props =>
                                  Forall (fun kv => flagFree strict strict' (snd kv)) props
                              | _ => True
                              end) "properties" fields IH2 Hp) as Hdeep.
      rewrite !(normalize_explicit_properties _ _ Hd Ho Hp).
      assert (Hnp : normalizeProperties (_normalizeSchema strict) (get "properties" fields)
                    = normalizeProperties (_normalizeSchema strict') (get "properties" fields)
                    /\ forall np,
                         normalizeProperties (_normalizeSchema strict)
                           (get "properties" fields) = Normal np ->
                         forallb (fun kv => shorthandFree (snd kv)) np = true).
      { destruct (get "properties" fields) as [| | | |s|elems|props]; simpl in *;
          try (split; [reflexivity|]; intros np Hn; try discriminate Hn;
               injection Hn as <-; reflexivity).
        - split; [reflexivity|]. intros np Hn. injection Hn as <-.
          apply forallb_combine_snd. apply forallb_forall.
          intros v Hv. apply in_map_iff in Hv as [c [<- _]]. reflexivity.
        - destruct (flagFree_list elems Hdeep Hprops) as [Heq Hres]. rewrite <- Heq.
          split; [reflexivity|]. intros np Hn.
          apply bind_Normal in Hn as [normalized [Hmap Hn]]. injection Hn as <-.
          apply forallb_combine_snd. now apply Hres.
        - now apply flagFree_properties. }
      destruct Hnp as [Heq Hres]. rewrite <- Heq. split; [reflexivity|].
      intros n Hn. apply bind_Normal in Hn as [np [Hmap Hn]]. injection Hn as <-.
      rewrite shorthandFree_explicit
        by (rewrite !has_key_setField_other by reflexivity; now rewrite Hd).
      rewrite has_key_setField_other, Ho by reflexivity.
      rewrite withField_setField_same, withField_setField_other by reflexivity.
      rewrite Hitems, andb_true_r. simpl. now apply Hres.
    + rewrite !(normalize_unchanged _ _ Hd Ho Hp). split; [reflexivity|].
      intros n Hn. injection Hn as <-.
      rewrite shorthandFree_explicit by (now rewrite Hd).
      now rewrite Ho, Hprops, Hitems.
Qed.

Lemma normalize_flagFree (schema : Schema) : flagFree strict strict' schema.
Proof.
  induction schema as [| | | | |elems IH|fields IH IH2] using JsonValue_deep_ind;
    try (intros _; split; [reflexivity|]; intros result Hn; simpl in Hn;
         try discriminate Hn; injection Hn as <-; reflexivity).
  - intros Hfree. simpl in Hfree.
    destruct (flagFree_list elems IH Hfree) as [Heq Hres]. simpl.
    destruct (1 <? List.length elems)%nat.
    + rewrite <- Heq. split; [reflexivity|].
      intros n Hn. apply bind_Normal in Hn as [alts [Hmap Hn]]. injection Hn as <-.
      rewrite shorthandFree_arraySchema. simpl. now apply Hres.
    + destruct elems as [|firstItem rest].
      * split; [reflexivity|]. intros n Hn. injection Hn as <-. reflexivity.
      * inversion IH as [|? ? Hfirst _]; subst.
        simpl in Hfree. apply andb_prop in Hfree as [Hw _].
        destruct (Hfirst Hw) as [Hfeq Hfres]. rewrite <- Hfeq.
        split; [reflexivity|].
        intros n Hn. apply bind_Normal in Hn as [items [Hitems Hn]]. injection Hn as <-.
        rewrite shorthandFree_arraySchema. now apply Hfres.
  - now apply flagFree_object.
Qed.
End FlagFree.

Lemma shorthandFree_entries (properties : JsonValue) (props : JsonObject) :
  shorthandFreeProperties shorthandFree properties = true ->
  entries properties = Normal props ->
  forallb (fun kv => shorthandFree (snd kv)) props = true.
Proof.
  destruct properties as [| | | |s|elems|fields]; simpl; intros Hfree Hentries;
    try discriminate; injection Hentries as <-; try reflexivity.
  - apply forallb_combine_snd. apply forallb_forall.
    intros v Hv. apply in_map_iff in Hv as [c [<- _]]. reflexivity.
  - now apply forallb_combine_snd.
  - exact Hfree.
Qed.

Section ActivationAgrees.
Variables recur recur' : JsonValue -> Schema -> string -> Completion (list ValidationError).
Hypothesis agree : agreeOnShorthandFree recur recur'.

Lemma tryAlternatives_agree (data : JsonValue) (p : string) (alternatives : list JsonValue) :
  forallb shorthandFree alternatives = true ->
  tryAlternatives recur data p alternatives = tryAlternatives recur' data p alternatives.
Proof.
  induction alternatives as [|alt rest IH]; simpl; intros Hfree; [reflexivity|].
  apply andb_prop in Hfree as [Halt Hrest].
  rewrite (agree data alt p Halt), (IH Hrest). reflexivity.
Qed.

Lemma validateUnion_agree (ns : JsonObject) (data : JsonValue) (p : string) :
  withField "oneOf" (shorthandFreeAlternatives shorthandFree) true ns = true ->
  validateUnion recur ns data p = validateUnion recur' ns data p.
Proof.
  intros Hwith.
  assert (Hfree : shorthandFreeAlternatives shorthandFree (get "oneOf" ns) = true)
    by (rewrite <- withField_get; exact Hwith).
  unfold validateUnion.
  destruct (get "oneOf" ns) as [| | | | |alternatives|]; try reflexivity.
  destruct (isUndefined data); [reflexivity|].
  simpl in Hfree. now rewrite (tryAlternatives_agree data p alternatives Hfree).
Qed.

Lemma validateArray_agree (ns : JsonObject) (data : JsonValue) (type p : string)
    (errors : list ValidationError) :
  withField "items" shorthandFree true ns = true ->
  validateArray recur ns data type p errors = validateArray recur' ns data type p errors.
Proof.
  intros Hwith.
  assert (Hitems : shorthandFree (get "items" ns) = true)
    by (rewrite <- withField_get; exact Hwith).
  unfold validateArray, validateItems.
  destruct (isString PropType.ARRAY (get "dataType" ns) && has_key "items" ns);
    [|reflexivity].
  destruct (negb (isArray data)); [reflexivity|].
  rewrite (mapM_ext_in
             (fun '(i, item) => recur item (get "items" ns) (itemPath p i))
             (fun '(i, item) => recur' item (get "items" ns) (itemPath p i)));
    [reflexivity|].
  apply Forall_forall. intros [i item] _. now apply agree.
Qed.

Lemma validateObject_agree (ns : JsonObject) (data : JsonValue) (type p : string)
    (errors : list ValidationError) :
  withField "properties" (shorthandFreeProperties shorthandFree) true ns = true ->
  withField "items" shorthandFree true ns = true ->
  validateObject recur ns data type p errors = validateObject recur' ns data type p errors.
Proof.
  intros Hwith Hitems.
  assert (Hprops : shorthandFreeProperties shorthandFree (get "properties" ns) = true)
    by (rewrite <- withField_get; exact Hwith).
  unfold validateObject.
  destruct (isString PropType.OBJECT (get "dataType" ns) && has_key "properties" ns);
    [|now apply validateArray_agree].
  destruct (negb (type =? "object") || isNull data); [reflexivity|].
  destruct (entries (get "properties" ns)) as [props| |] eqn:Hentries; try reflexivity.
  simpl. unfold validateProperties.
  pose proof (shorthandFree_entries _ _ Hprops Hentries) as Hfree.
  rewrite forallb_forall in Hfree.
  rewrite (mapM_ext_in
             (fun '(key, propSchema) =>
                recur (get key (fieldsOf data)) propSchema (propPath p key))
             (fun '(key, propSchema) =>
                recur' (get key (fieldsOf data)) propSchema (propPath p key)))
    by (apply Forall_forall; intros [key propSchema] Hin; apply agree;
        exact (Hfree _ Hin)).
  match goal with
  | |- context [mapM ?f props] => destruct (mapM f props) as [propErrors| |]
  end; try reflexivity.
  simpl.
  match goal with
  | |- bind ?c _ = _ => destruct c as [unexpected| |]
  end; try reflexivity.
  simpl. now apply validateArray_agree.
Qed.

Lemma validateBody_agree (strict strict' : bool) (data : JsonValue) (schema : Schema)
    (p : string) :
  shorthandFree schema = true ->
  validateBody recur strict data schema p = validateBody recur' strict' data schema p.
Proof.
  intros Hfree. unfold validateBody.
  destruct (normalize_flagFree strict strict' schema Hfree) as [Heq Hres].
  rewrite <- Heq.
  destruct (_normalizeSchema strict schema) as [n| |] eqn:Hn; try reflexivity.
  specialize (Hres n eq_refl). simpl.
  destruct n as [| | | | | |ns]; try reflexivity.
  destruct (negb (has_key "dataType" ns) && negb (has_key "oneOf" ns)) eqn:Himp.
  { simpl in Hres. rewrite Himp in Hres. discriminate. }
  rewrite shorthandFree_explicit in Hres by exact Himp.
  destruct (isUndefined data && truthy (get "optional" ns)); [reflexivity|].
  destruct (has_key "oneOf" ns); [now apply validateUnion_agree|].
  apply andb_prop in Hres as [Hprops Hitems].
  destruct (negb (isString (_getTypeOf data) (get "dataType" ns))); [reflexivity|].
  destruct (checkAllowedValues (get "allowedValues" ns) data p); try reflexivity.
  simpl. now apply validateObject_agree.
Qed.
End ActivationAgrees.

(** The strict flag matters to object shorthand only: on a schema written
    without implicit object schemas, [validate] gives the same result
    whatever the flag is. *)
Theorem strict_flag_irrelevant_without_shorthand :
  forall fuel strict strict' data schema p,
    shorthandFree schema = true ->
    validate fuel strict data schema p = validate fuel strict' data schema p.
Proof.
  induction fuel as [|fuel IH]; intros strict strict' data schema p Hfree; [reflexivity|].
  rewrite !validate_unfold.
  apply validateBody_agree; [|exact Hfree].
  intros data' schema' p' Hfree'. now apply IH.
Qed.

Lemma strict_flag_irrelevant_without_shorthand_witness :
  validate 3 true userData userSchema "" = validate 3 false userData userSchema "".
Proof. apply strict_flag_irrelevant_without_shorthand. reflexivity. Defined.
